(** * ipydeps: a shallow embedding of [ipydeps/ipydeps.py]

    The module is glue around one external executable (pip) and one HTTP
    endpoint.  Pure helpers are embedded as Rocq functions; everything that
    talks to the outside (subprocesses, the network, the logger, the file
    system) is embedded in a state-and-exception monad over an abstract
    world, and leaves an entry in a trace. *)

From Stdlib Require Import Ascii String List ZArith Lia Bool.
From stdpp Require Import base gmap sets list strings pretty.
Import ListNotations.

Local Open Scope string_scope.
Local Open Scope list_scope.

(** ** Text

    A Python [str] is embedded as [string]; its characters are the code
    points below 256. *)

Module Text.

Definition code (c : ascii) : nat := nat_of_ascii c.

Definition in_range (lo hi c : ascii) : bool :=
  (code lo <=? code c)%nat && (code c <=? code hi)%nat.

(** [str.isspace] on code points below 256. *)
Definition is_space (c : ascii) : bool :=
  let n := code c in
  ((9 <=? n) && (n <=? 13) || (28 <=? n) && (n <=? 32) || (n =? 133) || (n =? 160))%nat.

(** [str.lower] on one code point below 256: A-Z, and the Latin-1 capitals
    U+00C0..U+00DE except the multiplication sign U+00D7. *)
Definition lower_char (c : ascii) : ascii :=
  let n := code c in
  if ((65 <=? n) && (n <=? 90) || (192 <=? n) && (n <=? 222) && negb (n =? 215))%nat
  then ascii_of_nat (n + 32) else c.

Fixpoint lower (s : string) : string :=
  match s with
  | EmptyString => EmptyString
  | String c s' => String (lower_char c) (lower s')
  end.

Fixpoint lstrip (s : list ascii) : list ascii :=
  match s with
  | c :: s' => if is_space c then lstrip s' else s
  | [] => []
  end.

Definition strip_chars (s : list ascii) : list ascii :=
  rev (lstrip (rev (lstrip s))).

(** [s.strip()] *)
Definition strip (s : string) : string :=
  string_of_list_ascii (strip_chars (list_ascii_of_string s)).

(** [sep.join(l)] *)
Fixpoint join (sep : string) (l : list string) : string :=
  match l with
  | [] => ""
  | [x] => x
  | x :: l' => x +:+ sep +:+ join sep l'
  end.

(** [s.split('\n')]; [cur] holds the current piece, reversed. *)
Fixpoint split_nl (s cur : list ascii) : list (list ascii) :=
  match s with
  | [] => [rev cur]
  | c :: s' =>
      if Ascii.eqb c "010" then rev cur :: split_nl s' []
      else split_nl s' (c :: cur)
  end.

(** [s.split('==')] *)
Fixpoint split_eqeq (s cur : list ascii) : list (list ascii) :=
  match s with
  | [] => [rev cur]
  | c :: s' =>
      match s' with
      | c' :: s'' =>
          if Ascii.eqb c "=" && Ascii.eqb c' "=" then rev cur :: split_eqeq s'' []
          else split_eqeq s' (c :: cur)
      | [] => [rev (c :: cur)]
      end
  end.

Definition lines (s : string) : list string :=
  map string_of_list_ascii (split_nl (list_ascii_of_string s) []).

Definition split_double_equals (s : string) : list string :=
  map string_of_list_ascii (split_eqeq (list_ascii_of_string s) []).

Fixpoint insert_sorted (x : string) (l : list string) : list string :=
  match l with
  | [] => [x]
  | y :: l' => if String.leb x y then x :: l else y :: insert_sorted x l'
  end.

(** [sorted(l)] *)
Definition sorted (l : list string) : list string :=
  fold_right insert_sorted [] l.

End Text.

(** ** Regular expressions

    The fragment of Python's [re] that [package_name_pattern] is written in:
    literal characters, character sets, concatenation, ordered alternation
    and greedy repetition.  [matches] is the language of an expression;
    [bt] is the backtracking matcher, which commits to the first way of
    matching that the engine's search order finds. *)

Module Re.

Inductive regex : Type :=
  | Eps
  | Chr (c : ascii)
  | Cls (ranges : list (ascii * ascii))
  | Cat (r1 r2 : regex)
  | Alt (r1 r2 : regex)
  | Star (r : regex).

(** [r+] and [r?], both greedy. *)
Definition Plus (r : regex) : regex := Cat r (Star r).
Definition Opt (r : regex) : regex := Alt r Eps.

Definition in_class (ranges : list (ascii * ascii)) (c : ascii) : bool :=
  existsb (fun '(lo, hi) => Text.in_range lo hi c) ranges.

Inductive matches : regex -> list ascii -> Prop :=
  | m_eps : matches Eps []
  | m_chr c : matches (Chr c) [c]
  | m_cls ranges c : in_class ranges c = true -> matches (Cls ranges) [c]
  | m_cat r1 r2 s1 s2 :
      matches r1 s1 -> matches r2 s2 -> matches (Cat r1 r2) (s1 ++ s2)
  | m_alt_l r1 r2 s : matches r1 s -> matches (Alt r1 r2) s
  | m_alt_r r1 r2 s : matches r2 s -> matches (Alt r1 r2) s
  | m_star_nil r : matches (Star r) []
  | m_star_cons r s1 s2 :
      matches r s1 -> matches (Star r) s2 -> matches (Star r) (s1 ++ s2).

(** The least length of a text in the language. *)
Fixpoint min_len (r : regex) : nat :=
  match r with
  | Eps => 0
  | Chr _ => 1
  | Cls _ => 1
  | Cat r1 r2 => min_len r1 + min_len r2
  | Alt r1 r2 => Nat.min (min_len r1) (min_len r2)
  | Star _ => 0
  end.

(** The characters that texts of the language are made of. *)
Fixpoint alphabet (r : regex) (c : ascii) : bool :=
  match r with
  | Eps => false
  | Chr c' => Ascii.eqb c' c
  | Cls ranges => in_class ranges c
  | Cat r1 r2 => alphabet r1 c || alphabet r2 c
  | Alt r1 r2 => alphabet r1 c || alphabet r2 c
  | Star r' => alphabet r' c
  end.

(** The continuation [k] receives the unread rest of the subject and answers
    with the rest left by the whole match, or [None] to make the matcher try
    its next choice.  A repetition stops when an iteration reads nothing;
    its fuel is the length of the subject, which that rule never exhausts. *)
Fixpoint bt (r : regex) (s : list ascii)
    (k : list ascii -> option (list ascii)) : option (list ascii) :=
  match r with
  | Eps => k s
  | Chr c =>
      match s with
      | c' :: s' => if Ascii.eqb c c' then k s' else None
      | [] => None
      end
  | Cls ranges =>
      match s with
      | c' :: s' => if in_class ranges c' then k s' else None
      | [] => None
      end
  | Cat r1 r2 => bt r1 s (fun s' => bt r2 s' k)
  | Alt r1 r2 =>
      match bt r1 s k with
      | Some rest => Some rest
      | None => bt r2 s k
      end
  | Star r' =>
      (fix loop (fuel : nat) (s : list ascii) : option (list ascii) :=
         match fuel with
         | O => k s
         | S fuel' =>
             match bt r' s (fun s' =>
                     if (length s' <? length s)%nat then loop fuel' s' else None) with
             | Some rest => Some rest
             | None => k s
             end
         end) (length s) s
  end.

(** [pattern.match(s)] at the head of [s]: the length of the match. *)
Definition match_len (r : regex) (s : list ascii) : option nat :=
  match bt r s Some with
  | Some rest => Some (length s - length rest)%nat
  | None => None
  end.

(** [pattern.findall(s)] for a pattern whose group 1 spans the whole
    expression: the matched texts, scanning left to right; after a match the
    scan resumes where the match ended ([skip] counts the characters of the
    current match still to be passed), otherwise one character further. *)
Fixpoint scan (r : regex) (skip : nat) (s : list ascii) : list (list ascii) :=
  match s with
  | [] =>
      match skip, match_len r [] with
      | O, Some _ => [[]]
      | _, _ => []
      end
  | _ :: s' =>
      match skip with
      | S n => scan r n s'
      | O =>
          match match_len r s with
          | Some n => take n s :: scan r (n - 1) s'
          | None => scan r 0 s'
          end
      end
  end.

Definition findall (r : regex) (s : string) : list string :=
  map string_of_list_ascii (scan r 0 (list_ascii_of_string s)).

End Re.

(** ** The safelist pattern and input normalization *)

Import Re.

Definition letter : regex := Cls [("A", "Z"); ("a", "z")]%char.
Definition name_char : regex :=
  Cls [("A", "Z"); ("a", "z"); ("0", "9"); ("_", "_"); ("-", "-")]%char.
Definition digit : regex := Cls [("0", "9")]%char.

Definition comparator : regex :=
  Alt (Chr "<")
    (Alt (Chr ">")
       (Alt (Cat (Chr "<") (Chr "="))
          (Alt (Cat (Chr ">") (Chr "=")) (Cat (Chr "=") (Chr "="))))).

Definition version_spec : regex :=
  Cat comparator
    (Cat (Plus digit)
       (Cat (Chr ".") (Cat (Plus digit) (Star (Cat (Chr ".") (Plus digit)))))).

(** [package_name_pattern]: a letter, one or more name characters, then an
    optional version specifier (a comparator, digits, a dot, digits, and any
    number of further dot-digits groups).  Group 1 encloses the whole
    expression. *)
Definition package_name_pattern : regex :=
  Cat letter (Cat (Plus name_char) (Opt version_spec)).

Definition valid_pkg_names (s : string) : list string :=
  findall package_name_pattern s.

(** The argument of [get_pkg_names] and [pip]: a string, or a list or tuple
    of strings. *)
Inductive pkg_arg : Type :=
  | OneStr (s : string)
  | StrSeq (l : list string).

Definition joined (x : pkg_arg) : string :=
  match x with
  | OneStr s => s
  | StrSeq l => Text.join " " l
  end.

Definition get_pkg_names (x : pkg_arg) : gset string :=
  let packages := map Text.strip (valid_pkg_names (joined x)) in
  list_to_set (filter (fun p => (0 <? String.length p)%nat = true) packages).


(** ** Python values used by the module *)

Definition bytes : Type := list Byte.byte.

(** A [dict] with string keys, in insertion order.  Assigning to a key that
    is present keeps its position. *)
Definition dict (V : Type) : Type := list (string * V).

Fixpoint dict_get {V} (k : string) (d : dict V) : option V :=
  match d with
  | [] => None
  | (k', v) :: d' => if String.eqb k k' then Some v else dict_get k d'
  end.

Fixpoint dict_set {V} (k : string) (v : V) (d : dict V) : dict V :=
  match d with
  | [] => [(k, v)]
  | (k', v') :: d' =>
      if String.eqb k k' then (k', v) :: d' else (k', v') :: dict_set k v d'
  end.

Definition dict_mem {V} (k : string) (d : dict V) : bool :=
  match dict_get k d with Some _ => true | None => false end.

Definition dict_keys {V} (d : dict V) : list string := map fst d.

(** An override: the commands to run, each an argument list. *)
Definition commands : Type := list (list string).

(** The override document: version tag, then package name, then commands. *)
Definition dep_json_t : Type := dict (dict commands).

Inductive exn : Type :=
  | NameError (name : string)
  | TypeError (what : string)
  | AttributeError (what : string)
  | KeyError (key : string)
  | ValueError (what : string)
  | UnicodeDecodeError
  | URLError (reason : string)
  | CalledProcessError (returncode : Z) (stderr : option bytes)
  | OSError (what : string).

Inductive result (A : Type) : Type :=
  | Ok (a : A)
  | Raise (e : exn).
Arguments Ok {A} a.
Arguments Raise {A} e.

Inductive level : Type := DEBUG | INFO | WARNING | ERROR.

Definition environment : Type := dict string.

(** What a run leaves behind, oldest first. *)
Inductive event : Type :=
  | EvLog (lvl : level) (fmt : string) (args : list string)
  | EvSpawn (cmd : list string) (env : environment)
  | EvUrlopen (url : string) (pki : bool)
  | EvAddEntry (entry : string)
  | EvInvalidateCaches
  | EvSleep (seconds : nat).

(** How a child process ends: its exit status and captured output, or the
    exception of a spawn that failed. *)
Inductive proc_result : Type :=
  | Exited (returncode : Z) (stdout stderr : bytes)
  | SpawnFailed (e : exn).

(** How [urlopen] followed by [read] ends: the body; an [HTTPError] with its
    body; or another exception. *)
Inductive url_result : Type :=
  | Body (b : bytes)
  | HTTPError (body : bytes)
  | UrlFailed (e : exn).

(** How [json.loads] ends: the document, or a [JSONDecodeError] with its
    message. *)
Inductive json_result : Type :=
  | Decoded (j : dep_json_t)
  | JSONDecodeError (msg : string).

(** The fields of [Config] that this module reads. *)
Record Config : Type := {
  dependencies_link : string;
  dependencies_link_requires_pki : bool;
}.

(** ** The world

    Everything the module imports and does not define: the interpreter
    ([sys], [os.environ]), [pathlib], [subprocess], [urllib], [json],
    [pkg_resources], [importlib], [pypki3], [temppath], and the sibling
    modules [.config] and [.utils], whose sources are not at hand.  [W] is
    the state of the outside. *)
Class World (W : Type) : Type := {
  version_info : nat * nat * nat;
  executable : string;
  sys_path : W -> list string;
  environ : W -> environment;
  decode_utf8 : bytes -> option string;
  json_loads : string -> json_result;
  path_join : string -> string -> string;
  path_exists : string -> W -> bool;
  spawn : list string -> environment -> W -> proc_result * W;
  urlopen : string -> bool -> W -> url_result * W;
  working_set : W -> list string;
  add_entry : string -> W -> W;
  invalidate_caches : W -> W;
  sleep : nat -> W -> W;
  config_dir : W -> result (option string);
  load_config : option string -> W -> result Config;
  stdlib_packages : gset string;
  normalize_package_names : gset string -> gset string;
  key_cert_paths : W -> result (string * string) * W;
  release_key_cert : W -> W;
  ca_path : W -> result string;
  temporary_path : W -> string * W;
  remove_temporary_path : string -> W -> W;
  combine_key_and_cert : string -> string -> string -> W -> result unit * W;
}.

(** ** The monad: state of the world, trace, exceptions *)

Record state (W : Type) : Type := mkState {
  world : W;
  trace : list event;
}.
Arguments mkState {W} world trace.
Arguments world {W} s.
Arguments trace {W} s.

Definition M (W A : Type) : Type := state W -> result A * state W.

Definition ret {W A} (a : A) : M W A := fun st => (Ok a, st).

Definition raise {W A} (e : exn) : M W A := fun st => (Raise e, st).

Definition bind {W A B} (m : M W A) (k : A -> M W B) : M W B :=
  fun st =>
    match m st with
    | (Ok a, st') => k a st'
    | (Raise e, st') => (Raise e, st')
    end.

Declare Scope py_scope.
Delimit Scope py_scope with py.
Notation "x <- m ;; k" := (bind m (fun x => k))
  (at level 100, m at next level, right associativity) : py_scope.
Notation "m ;; k" := (bind m (fun _ => k))
  (at level 100, right associativity) : py_scope.
Local Open Scope py_scope.

Definition lift {W A} (r : result A) : M W A := fun st => (r, st).

Definition emit {W} (e : event) : M W unit :=
  fun st => (Ok tt, mkState (world st) (trace st ++ [e])).

(** A read of the world, and a step of it. *)
Definition ask {W A} (f : W -> A) : M W A := fun st => (Ok (f (world st)), st).

Definition step {W A} (f : W -> A * W) : M W A :=
  fun st => let '(a, w) := f (world st) in (Ok a, mkState w (trace st)).

Definition poke {W} (f : W -> W) : M W unit :=
  fun st => (Ok tt, mkState (f (world st)) (trace st)).

Definition logger {W} (lvl : level) (fmt : string) (args : list string) : M W unit :=
  emit (EvLog lvl fmt args).

(** [try: m  finally: cleanup] *)
Definition finally {W A} (m : M W A) (cleanup : M W unit) : M W A :=
  fun st =>
    match m st with
    | (r, st') =>
        match cleanup st' with
        | (Ok _, st'') => (r, st'')
        | (Raise e, st'') => (Raise e, st'')
        end
    end.

Fixpoint for_each {W A} (l : list A) (body : A -> M W unit) : M W unit :=
  match l with
  | [] => ret tt
  | x :: l' => body x ;; for_each l' body
  end.

(** [str(b, encoding='utf8')] *)
Definition str_utf8 {W} `{World W} (b : bytes) : M W string :=
  match decode_utf8 b with
  | Some s => ret s
  | None => raise UnicodeDecodeError
  end.

(** ** Name resolution

    The names bound at module level, by the imports and the definitions.  A
    name that a function reads without assigning it is looked up here. *)
Definition module_globals : list string :=
  [ "importlib_invalidate_caches"; "environ"; "sleep"; "Callable"; "Dict";
    "Sequence"; "Set"; "Union"; "HTTPError"; "urlopen"; "json";
    "pkg_resources"; "re"; "subprocess"; "sys"; "pki_loader";
    "NamedTemporaryKeyCertPaths"; "ssl_context"; "TemporaryPathContext";
    "config_dir"; "load_config"; "logger"; "combine_key_and_cert";
    "normalize_package_names"; "stdlib_packages"; "package_name_pattern";
    "pip_run_args"; "run_pip"; "invalidate_cache";
    "refresh_available_packages"; "valid_pkg_names"; "get_pkg_names";
    "py_name_micro"; "py_name_minor"; "py_name_major";
    "case_insensitive_dependencies_json"; "get_dependencies_link_urlopener";
    "read_dependencies_json"; "find_overrides"; "run_get_stderr";
    "get_freeze_package_name"; "process_pip_freeze_output";
    "pip_freeze_packages"; "currently_installed"; "subtract_installed";
    "subtract_stdlib"; "run_and_log_error"; "run_overrides";
    "log_currently_installed"; "log_before_after"; "find_pip_config_path";
    "pip_config_found"; "pip" ].

(** Reading the set-valued variable [name] inside a function whose
    set-valued local variables are [locals].  None of the module-level names
    is bound to a set. *)
Definition load_name (locals : list (string * gset string)) (name : string)
    : result (gset string) :=
  match dict_get name locals with
  | Some v => Ok v
  | None =>
      if existsb (String.eqb name) module_globals
      then Raise (TypeError name)
      else Raise (NameError name)
  end.

(** Sequencing in [result], for code that has no effect but may raise. *)
Definition rbind {A B} (r : result A) (k : A -> result B) : result B :=
  match r with
  | Ok a => k a
  | Raise e => Raise e
  end.

(** [{p.lower() for p in s}] *)
Definition lower_all (s : gset string) : gset string := set_map Text.lower s.

Definition subtract_installed (already_installed requested : gset string)
    : result (gset string) :=
  let requested_packages := lower_all requested in  (* removes duplicates *)
  let locals :=
    [ ("already_installed", already_installed); ("requested", requested);
      ("requested_packages", requested_packages) ] in
  rbind (load_name locals "packages") (fun packages =>
  rbind (load_name locals "already_installed") (fun already_installed =>
  Ok (packages ∖ already_installed))).

Definition find_pip_config_path (config_name configs_path : option string)
    (join : string -> string -> string) : result (option string) :=
  match configs_path with
  | None => Ok None
  | Some dir =>
      match config_name with
      | Some name => Ok (Some (join dir name))
      | None => Raise (TypeError "unsupported operand type(s) for /")
      end
  end.

Definition get_freeze_package_name (info : string) : result string :=
  match Text.split_double_equals info with
  | [name; _] => Ok (Text.strip name)
  | _ => Raise (ValueError "unpack")
  end.

Fixpoint map_result {A B} (f : A -> result B) (l : list A) : result (list B) :=
  match l with
  | [] => Ok []
  | x :: l' =>
      rbind (f x) (fun y => rbind (map_result f l') (fun ys => Ok (y :: ys)))
  end.

Section Ipydeps.

Context {W : Type} `{World W}.

Definition query {A} (f : W -> result A) : M W A :=
  fun st => (f (world st), st).

Definition call {A} (f : W -> result A * W) : M W A :=
  fun st => let '(r, w) := f (world st) in (r, mkState w (trace st)).

Definition pip_run_args : list string := [executable; "-m"; "pip"].

(** [subprocess.check_output(cmd, env=env)], with [stderr=subprocess.PIPE]
    when [pipe_stderr]. *)
Definition check_output (cmd : list string) (env : environment)
    (pipe_stderr : bool) : M W bytes :=
  emit (EvSpawn cmd env) ;;
  r <- step (spawn cmd env) ;;
  match r with
  | Exited rc out err =>
      if (rc =? 0)%Z then ret out
      else raise (CalledProcessError rc (if pipe_stderr then Some err else None))
  | SpawnFailed e => raise e
  end.

Definition run_get_stderr (cmd : list string) (env : environment)
    : M W (Z * option string) :=
  fun st =>
    match check_output cmd env true st with
    | (Ok _, st') => (Ok (0%Z, None), st')
    | (Raise (CalledProcessError returncode stderr), st') =>
        match stderr with
        | Some b => (err <- str_utf8 b ;; ret (returncode, Some err)) st'
        | None => (Raise (TypeError "decoding to str"), st')
        end
    | (Raise e, st') => (Raise e, st')
    end.

Definition run_pip (packages : list string) (use_pki verbose : bool)
    (pip_config_path : option string) : M W (Z * option string) :=
  let args := ["install"] ++ (if verbose then ["-vvv"] else []) in
  env0 <- ask environ ;;
  let env :=
    match pip_config_path with
    | Some p => dict_set "PIP_CONFIG_FILE" p env0
    | None => env0
    end in
  if use_pki then
    key_cert <- call key_cert_paths ;;
    finally
      (let '(key_path, cert_path) := key_cert in
       ca <- query ca_path ;;
       combined_key_cert_path <- step temporary_path ;;
       finally
         (call (combine_key_and_cert combined_key_cert_path key_path cert_path) ;;
          let args :=
            args ++ ["--client-cert=" +:+ combined_key_cert_path; "--cert=" +:+ ca] in
          run_get_stderr (pip_run_args ++ args ++ packages) env)
         (poke (remove_temporary_path combined_key_cert_path)))
      (poke release_key_cert)
  else run_get_stderr (pip_run_args ++ args ++ packages) env.

Definition invalidate_cache : M W unit :=
  poke invalidate_caches ;;
  emit EvInvalidateCaches ;;
  poke (sleep 2) ;;
  emit (EvSleep 2).

Definition refresh_available_packages : M W unit :=
  entries <- ask sys_path ;;
  for_each entries (fun entry => poke (add_entry entry) ;; emit (EvAddEntry entry)).

Definition py_name_micro : string :=
  let '(major, minor, micro) := version_info in
  "python-" +:+ pretty major +:+ "." +:+ pretty minor +:+ "." +:+ pretty micro.

Definition py_name_minor : string :=
  let '(major, minor, _) := version_info in
  "python-" +:+ pretty major +:+ "." +:+ pretty minor.

Definition py_name_major : string :=
  let '(major, _, _) := version_info in
  "python-" +:+ pretty major.

(** The inner loop of [case_insensitive_dependencies_json]: [todo] are the
    keys of [packages] still to visit, [acc] is [lowercased[version]]. *)
Fixpoint lowercase_packages (packages : dict commands) (todo : list string)
    (acc : dict commands) : M W (dict commands) :=
  match todo with
  | [] => ret acc
  | pkg :: todo' =>
      let pkg := Text.lower pkg in
      match dict_get pkg packages with
      | None => raise (KeyError pkg)
      | Some cmds =>
          (if dict_mem pkg acc
           then logger WARNING
                  "Duplicate package name %s in dependencies JSON.  Package names are case-insensitive.  Overwriting!"
                  [pkg]
           else ret tt) ;;
          lowercase_packages packages todo' (dict_set pkg cmds acc)
      end
  end.

(** The outer loop: [todo] are the version keys still to visit. *)
Fixpoint lowercase_versions (dep_json : dep_json_t) (todo : list string)
    (lowercased : dep_json_t) : M W dep_json_t :=
  match todo with
  | [] => ret lowercased
  | version :: todo' =>
      match dict_get version dep_json with
      | None => raise (KeyError version)
      | Some packages =>
          inner <- lowercase_packages packages (dict_keys packages) [] ;;
          lowercase_versions dep_json todo' (dict_set version inner lowercased)
      end
  end.

(** [dep_json[tag][pkg]], when both keys are present. *)
Definition override_entry (dep_json : dep_json_t) (tag pkg : string)
    : option commands :=
  match dict_get tag dep_json with
  | Some table => dict_get pkg table
  | None => None
  end.

Definition case_insensitive_dependencies_json (dep_json : dep_json_t)
    : M W dep_json_t :=
  lowercase_versions dep_json (dict_keys dep_json) [].

(** [get_dependencies_link_urlopener(config)(url)] followed by [read()]. *)
Definition open_and_read (config : Config) : M W url_result :=
  let pki := dependencies_link_requires_pki config in
  emit (EvUrlopen (dependencies_link config) pki) ;;
  step (urlopen (dependencies_link config) pki).

Definition read_dependencies_json (config : Config) : M W dep_json_t :=
  resp <- open_and_read config ;;
  match resp with
  | UrlFailed e => raise e
  | HTTPError body =>
      msg <- str_utf8 body ;;
      logger ERROR msg [] ;;
      ret []
  | Body b =>
      d <- str_utf8 b ;;
      match json_loads d with
      | JSONDecodeError msg =>
          logger ERROR msg [] ;;
          ret []
      | Decoded j => case_insensitive_dependencies_json j
      end
  end.

(** The body of the loops of [find_overrides]: the override of [pkg], when
    [table] has one, is assigned to [overrides[pkg]]. *)
Definition override_pass (table : dict commands) (overrides : dict commands)
    (pkg : string) : dict commands :=
  match dict_get pkg table with
  | Some cmds => dict_set pkg cmds overrides
  | None => overrides
  end.

(** One of the three passes of [find_overrides] over the requested
    packages, for the version tag [tag]. *)
Definition apply_tag (dep_json : dep_json_t) (tag : string)
    (packages : list string) (overrides : dict commands) : dict commands :=
  match dict_get tag dep_json with
  | None => overrides
  | Some table => fold_left (override_pass table) packages overrides
  end.

Definition find_overrides (packages : gset string) (config : Config)
    : M W (dict commands) :=
  if (size packages =? 0)%nat then ret []
  else
    dep_json <- read_dependencies_json config ;;
    let major := py_name_major in
    let minor := py_name_minor in
    let micro := py_name_micro in
    let pkgs := elements packages in
    let overrides := [] in
    (* Check major, then minor, then micro so the most
       specific override is used for a particular package. *)
    let overrides := apply_tag dep_json major pkgs overrides in
    let overrides := apply_tag dep_json minor pkgs overrides in
    let overrides := apply_tag dep_json micro pkgs overrides in
    ret overrides.

Definition process_pip_freeze_output (pkgs : bytes) : M W (list string) :=
  text <- str_utf8 pkgs ;;
  let pkgs := Text.lines text in
  let pkgs :=
    filter (fun p => ((0 <? String.length p)%nat
                      && (1 <? length (Text.split_double_equals p))%nat) = true) pkgs in
  lift (map_result get_freeze_package_name pkgs).

Definition pip_freeze_packages : M W (list string) :=
  env <- ask environ ;;
  pkgs <- check_output (pip_run_args ++ ["freeze"; "--all"]) env false ;;
  process_pip_freeze_output pkgs.

Definition currently_installed : M W (gset string) :=
  pr <- ask working_set ;;
  pf <- pip_freeze_packages ;;
  ret (lower_all (list_to_set pr ∪ list_to_set pf)).

Definition stdlib_skip_format : string :=
  "%s is part of the Python standard library and will be skipped.  Remove it from the list to remove this warning.".

Definition subtract_stdlib (packages : gset string) : M W (gset string) :=
  let stdlib := stdlib_packages in
  for_each (elements (packages ∩ stdlib)) (fun package =>
    logger WARNING stdlib_skip_format [package]) ;;
  ret (packages ∖ stdlib).

Definition run_and_log_error (cmd : list string) : M W unit :=
  env <- ask environ ;;
  r <- run_get_stderr cmd env ;;
  let '(returncode, err) := r in
  match negb (returncode =? 0)%Z, err with
  | true, Some err => logger ERROR err []
  | _, _ => ret tt
  end.

Definition run_overrides (overrides : dict commands) : M W unit :=
  for_each overrides (fun '(name, cmds) =>
    logger INFO "Executing overrides for %s" [name] ;;
    for_each cmds (fun command =>
      if (0 <? length command)%nat then
        logger DEBUG (Text.join " " command) [] ;;
        run_and_log_error command
      else ret tt)).

Definition log_currently_installed (before requested : gset string) : M W unit :=
  let already_installed := before ∩ requested in
  if (0 <? size already_installed)%nat then
    logger INFO "Packages currently installed: %s"
      [Text.join ", " (Text.sorted (elements already_installed))]
  else ret tt.

Definition log_before_after (before after : gset string) : M W unit :=
  let new_packages := after ∖ before in
  if (size new_packages =? 0)%nat then
    logger WARNING "No new packages installed" []
  else
    logger INFO
      ("New packages installed: " +:+ Text.join ", " (Text.sorted (elements new_packages)))
      [].

Definition config_missing_format : string :=
  "Could not find pip config named %s at %s".

Definition pip_config_found (config_name pip_config_path : option string)
    : M W bool :=
  match config_name with
  | None => ret true
  | Some name =>
      match pip_config_path with
      | None => raise (AttributeError "exists")
      | Some path =>
          found <- ask (path_exists path) ;;
          if found then ret true
          else
            logger ERROR config_missing_format [name; path] ;;
            ret false
      end
  end.

Definition pip (requested_packages : pkg_arg)
    (verbose use_pki use_overrides : bool) (config : option string) : M W unit :=
  configs_path <- query config_dir ;;
  ipydeps_config <- query (load_config configs_path) ;;
  pip_config_path <- lift (find_pip_config_path config configs_path path_join) ;;
  found <- pip_config_found config pip_config_path ;;
  if negb found then ret tt
  else
    packages_before_install <- currently_installed ;;
    let requested_packages := get_pkg_names requested_packages in
    let requested_packages := normalize_package_names requested_packages in
    requested_packages <- subtract_stdlib requested_packages ;;
    (* ignore items that have already been installed *)
    log_currently_installed packages_before_install requested_packages ;;
    requested_packages <-
      lift (subtract_installed packages_before_install requested_packages) ;;
    (if use_overrides then
       overrides <- find_overrides requested_packages ipydeps_config ;;
       run_overrides overrides
     else ret tt) ;;
    (* now that overrides have run, calculate and subtract what's installed again *)
    refresh_available_packages ;;
    installed <- currently_installed ;;
    to_install <- lift (subtract_installed installed requested_packages) ;;
    let packages_to_install := elements to_install in
    let locals :=
      [ ("packages_before_install", packages_before_install);
        ("requested_packages", requested_packages) ] in
    packages <- lift (load_name locals "packages") ;;
    (if (0 <? size packages)%nat then
       logger DEBUG "Running pip to install %s"
         [Text.join ", " (Text.sorted (elements packages))] ;;
       r <- run_pip packages_to_install use_pki verbose pip_config_path ;;
       (let '(returncode, err) := r in
        match negb (returncode =? 0)%Z, err with
        | true, Some err => logger ERROR err []
        | _, _ => ret tt
        end) ;;
       invalidate_cache ;;
       refresh_available_packages
     else ret tt) ;;
    packages_after_install <- currently_installed ;;
    log_before_after packages_before_install packages_after_install ;;
    logger DEBUG "Done" [].

End Ipydeps.

(** ** A concrete world

    One interpreter (Python 3.11.4), one file system, one answer of the
    network, one package registry.  Child processes exit with status 0; the
    freeze listing is built from the registry. *)

Module Demo.

Record world_t : Type := {
  net : url_result;
  files : list string;
  registry : list string;
  configs : option string;
}.

(** The override document served in this world. *)
Definition document : dep_json_t :=
  [ ("python-3", [("numpy", [["echo"; "major"]]); ("scipy", [["echo"; "three"]])]);
    ("python-3.11", [("numpy", [["echo"; "minor"]])]);
    ("python-3.11.4", [("numpy", [["echo"; "micro"]])]) ].

(** UTF-8 decoding of the code points below 256: one byte below 128, or a
    lead byte C2 or C3 with one continuation byte.  Any other byte sequence
    is malformed or encodes a character beyond the embedded [str]. *)
Fixpoint utf8 (b : bytes) : option (list ascii) :=
  match b with
  | [] => Some []
  | x :: b' =>
      let n := Byte.to_nat x in
      if (n <? 128)%nat then option_map (cons (ascii_of_nat n)) (utf8 b')
      else if ((n =? 194) || (n =? 195))%nat then
        match b' with
        | y :: b'' =>
            let m := Byte.to_nat y in
            if ((128 <=? m) && (m <? 192))%nat
            then option_map (cons (ascii_of_nat ((n - 192) * 64 + (m - 128)))) (utf8 b'')
            else None
        | [] => None
        end
      else None
  end.

Definition freeze_listing (w : world_t) : bytes :=
  String.list_byte_of_string
    (Text.join "" (map (fun name => name +:+ "==1.0" +:+ String "010" "") (registry w))).

#[export] Instance demo_world : World world_t := {|
  version_info := (3, 11, 4);
  executable := "/usr/bin/python3";
  sys_path := fun _ => ["/usr/lib/python3.11/site-packages"];
  environ := fun _ => [("HOME", "/root")];
  decode_utf8 := fun b => option_map string_of_list_ascii (utf8 b);
  json_loads := fun d =>
    if String.eqb d "overrides" then Decoded document
    else JSONDecodeError "Expecting value: line 1 column 1 (char 0)";
  path_join := fun dir name => dir +:+ "/" +:+ name;
  path_exists := fun p w => existsb (String.eqb p) (files w);
  spawn := fun cmd env w => (Exited 0 (freeze_listing w) [], w);
  urlopen := fun url pki w => (net w, w);
  working_set := registry;
  add_entry := fun _ w => w;
  invalidate_caches := fun w => w;
  sleep := fun _ w => w;
  config_dir := fun w => Ok (configs w);
  load_config := fun _ _ =>
    Ok {| dependencies_link := "https://example.org/dependencies.json";
          dependencies_link_requires_pki := false |};
  stdlib_packages := list_to_set ["os"; "sys"; "json"; "re"];
  normalize_package_names := fun s => s;
  key_cert_paths := fun w => (Ok ("/tmp/key", "/tmp/cert"), w);
  release_key_cert := fun w => w;
  ca_path := fun _ => Ok "/etc/ssl/ca.pem";
  temporary_path := fun w => ("/tmp/combined", w);
  remove_temporary_path := fun _ w => w;
  combine_key_and_cert := fun _ _ _ w => (Ok tt, w);
|}.

Definition config : Config :=
  {| dependencies_link := "https://example.org/dependencies.json";
     dependencies_link_requires_pki := false |}.

Definition start (w : world_t) : state world_t := mkState w [].

(** The network serves the override document; [numpy] is installed. *)
Definition serving : world_t :=
  {| net := Body (String.list_byte_of_string "overrides");
     files := ["/etc/ipydeps/pip.conf"];
     registry := ["numpy"; "pip"];
     configs := None |}.

(** The host of the override document cannot be reached. *)
Definition unreachable : world_t :=
  {| net := UrlFailed (URLError "[Errno 111] Connection refused");
     files := [];
     registry := ["pip"];
     configs := None |}.

(** The server answers 404. *)
Definition not_found : world_t :=
  {| net := HTTPError (String.list_byte_of_string "Not Found");
     files := [];
     registry := ["pip"];
     configs := None |}.

(** The server answers with an error whose body is not UTF-8. *)
Definition garbled : world_t :=
  {| net := HTTPError [Byte.xff; Byte.xfe];
     files := [];
     registry := ["pip"];
     configs := None |}.

(** A configuration directory without [missing.conf]. *)
Definition with_configs : world_t :=
  {| net := Body (String.list_byte_of_string "overrides");
     files := ["/etc/ipydeps/pip.conf"];
     registry := ["pip"];
     configs := Some "/etc/ipydeps" |}.

(** The two entries that these worlds' runs leave most often. *)
Definition freeze : event :=
  EvSpawn ["/usr/bin/python3"; "-m"; "pip"; "freeze"; "--all"] [("HOME", "/root")].

Definition fetch : event :=
  EvUrlopen "https://example.org/dependencies.json" false.

End Demo.

(** ** Vocabulary for statements about runs *)

(** The command lines of the child processes that a piece of trace shows,
    in the order they were started. *)
Fixpoint spawned (t : list event) : list (list string) :=
  match t with
  | [] => []
  | EvSpawn cmd _ :: t' => cmd :: spawned t'
  | _ :: t' => spawned t'
  end.

(** The entries of a piece of trace that the logger wrote. *)
Fixpoint logged (t : list event) : list (level * string * list string) :=
  match t with
  | [] => []
  | EvLog lvl fmt args :: t' => (lvl, fmt, args) :: logged t'
  | _ :: t' => logged t'
  end.

Definition is_letter (c : ascii) : bool := alphabet letter c.
Definition is_name_char (c : ascii) : bool := alphabet name_char c.

(** A bare package name: a letter, then one or more name characters. *)
Definition plain_name (s : string) : bool :=
  match list_ascii_of_string s with
  | c :: ((_ :: _) as rest) => is_letter c && forallb is_name_char rest
  | _ => false
  end.

Definition is_digit (c : ascii) : bool := alphabet digit c.

(** A group of a version number: one or more digits. *)
Definition digit_group (g : string) : bool :=
  match list_ascii_of_string g with
  | [] => false
  | l => forallb is_digit l
  end.

Definition comparators : list string := ["<"; ">"; "<="; ">="; "=="].

(** A requirement as a user writes it: a bare name, or a name with a
    comparator and a version of two or more dot-separated groups. *)
Inductive requirement : Type :=
  | Bare (name : string)
  | Versioned (name cmp first second : string) (more : list string).

Definition requirement_text (r : requirement) : string :=
  match r with
  | Bare name => name
  | Versioned name cmp first second more =>
      name +:+ cmp +:+ Text.join "." (first :: second :: more)
  end.

Definition well_formed_requirement (r : requirement) : Prop :=
  match r with
  | Bare name => plain_name name = true
  | Versioned name cmp first second more =>
      plain_name name = true /\ In cmp comparators
      /\ digit_group first = true /\ digit_group second = true
      /\ Forall (fun g => digit_group g = true) more
  end.

(** What may follow a token in a space-joined input: the end, or a space. *)
Definition at_boundary (rest : list ascii) : Prop :=
  rest = [] \/ exists rest', rest = " "%char :: rest'.

(** A text that the pattern matches whole, whenever it stands before a
    boundary; it is not empty and holds no white space. *)
Definition whole_token (t : list ascii) : Prop :=
  t <> []
  /\ Forall (fun c => Text.is_space c = false) t
  /\ forall rest, at_boundary rest ->
       match_len package_name_pattern (t ++ rest) = Some (length t).

(** The loop that [bt] runs for the last part of the version specifier,
    the repetition of dot-digits groups, with the continuation [Some]. *)
Definition group_loop : nat -> list ascii -> option (list ascii) :=
  fix loop (fuel : nat) (s : list ascii) : option (list ascii) :=
    match fuel with
    | O => Some s
    | S fuel' =>
        match bt (Cat (Chr ".") (Plus digit)) s (fun s' =>
                if (length s' <? length s)%nat then loop fuel' s' else None) with
        | Some rest => Some rest
        | None => Some s
        end
    end.

(** One or more digits. *)
Definition digits_run (g : list ascii) : Prop :=
  g <> [] /\ Forall (fun c => in_class [("0", "9")]%char c = true) g.

(** The dot-digits groups of a version, as text. *)
Definition dotted (groups : list (list ascii)) : list ascii :=
  concat (map (fun g => "."%char :: g) groups).

(** The part of the version specifier after the comparator. *)
Definition version_number : regex :=
  Cat (Plus digit) (Cat (Chr ".") (Cat (Plus digit) (Star (Cat (Chr ".") (Plus digit))))).

(** The text of a versioned requirement, in characters. *)
Definition versioned_chars (c : ascii) (run : list ascii) (cmp : string)
    (first second : list ascii) (more : list (list ascii)) : list ascii :=
  c :: run ++ list_ascii_of_string cmp ++ first ++ "."%char :: second ++ dotted more.

(** A run of [m] only adds to the trace, and every entry it adds satisfies
    [P], whether the run returns or raises. *)
Definition appends {W A} (P : event -> Prop) (m : M W A) : Prop :=
  forall st r st',
    m st = (r, st') -> exists t, trace st' = trace st ++ t /\ Forall P t.

(** The entries that running one command can leave: its spawn, and error
    entries of the logger. *)
Definition command_entry (cmd : list string) (e : event) : Prop :=
  match e with
  | EvSpawn cmd' _ => cmd' = cmd
  | EvLog lvl _ _ => True
  | _ => False
  end.

(** An entry of the logger, of level warning or error. *)
Definition warning_or_error (e : event) : Prop :=
  match e with
  | EvLog lvl _ _ => lvl = WARNING \/ lvl = ERROR
  | _ => False
  end.

(** The command can be started, in any environment and state of the world,
    and what it writes to standard error is UTF-8; its exit status is
    free. *)
Definition starts {W} `{World W} (cmd : list string) : Prop :=
  forall env (w : W), exists rc out err w',
    spawn cmd env w = (Exited rc out err, w') /\ decode_utf8 err <> None.

(** The non-empty commands of an override table, in the order in which
    [run_overrides] meets them. *)
Definition override_commands (overrides : dict commands) : list (list string) :=
  filter (fun command => (0 <? length command)%nat = true)
    (concat (map snd overrides)).

(** A table, and a document, as a [dict] is: no key twice; here also with
    every package key already in lower case. *)
Definition lowercase_table (table : dict commands) : Prop :=
  NoDup (dict_keys table) /\ Forall (fun k => Text.lower k = k) (dict_keys table).

Definition lowercase_document (dep_json : dep_json_t) : Prop :=
  NoDup (dict_keys dep_json) /\ Forall (fun entry => lowercase_table (snd entry)) dep_json.

Definition newline : string := String "010" "".

Definition no_char (c : ascii) (s : string) : Prop :=
  Forall (fun c' => c' <> c) (list_ascii_of_string s).

(** A line of a [pip freeze] listing: [name==version], or something else
    (an editable install, a direct reference, a comment). *)
Inductive freeze_line : Type :=
  | Pinned (name version : string)
  | Unpinned (text : string).

Definition line_text (l : freeze_line) : string :=
  match l with
  | Pinned name version => name +:+ "==" +:+ version
  | Unpinned text => text
  end.

(** The text of a listing: its lines, each ended by a newline. *)
Fixpoint freeze_text (ls : list freeze_line) : string :=
  match ls with
  | [] => ""
  | l :: ls' => line_text l +:+ newline +:+ freeze_text ls'
  end.

(** The names of the pinned lines, trimmed, in the order of the listing. *)
Fixpoint pinned_names (ls : list freeze_line) : list string :=
  match ls with
  | [] => []
  | Pinned name _ :: ls' => Text.strip name :: pinned_names ls'
  | Unpinned _ :: ls' => pinned_names ls'
  end.

(** No field of the line holds a newline or an equals sign. *)
Definition plain_line (l : freeze_line) : Prop :=
  match l with
  | Pinned name version =>
      no_char "=" name /\ no_char "010" name
      /\ no_char "=" version /\ no_char "010" version
  | Unpinned text => no_char "=" text /\ no_char "010" text
  end.

(** ** A second concrete world

    A shell in which [true] exits with 0, [false] exits with 1 and a message
    on standard error, and no other program can be found but the
    interpreter, whose [pip freeze] lists three lines, or fails when pip is
    broken.  The world records the command lines that ran, latest first. *)

Module Shell.

Record world_t : Type := {
  history : list (list string);
  pip_broken : bool;
}.

Definition ran (cmd : list string) (w : world_t) : world_t :=
  {| history := cmd :: history w; pip_broken := pip_broken w |}.

Definition listing : list freeze_line :=
  [Pinned "NumPy" "1.26.4"; Unpinned "-e /src/project"; Pinned "pip" "24.0"].

Definition run (cmd : list string) (env : environment) (w : world_t)
    : proc_result * world_t :=
  match cmd with
  | "true" :: _ => (Exited 0 [] [], ran cmd w)
  | "false" :: _ =>
      (Exited 1 [] (String.list_byte_of_string "something went wrong"), ran cmd w)
  | "/usr/bin/python3" :: _ =>
      if pip_broken w
      then (Exited 1 [] (String.list_byte_of_string "No module named pip"), ran cmd w)
      else (Exited 0 (String.list_byte_of_string (freeze_text listing)) [], ran cmd w)
  | _ => (SpawnFailed (OSError "No such file or directory"), w)
  end.

#[export] Instance shell_world : World world_t := {|
  version_info := (3, 12, 0);
  executable := "/usr/bin/python3";
  sys_path := fun _ => ["/usr/lib/python3.12"; "/usr/lib/python3.12/site-packages"];
  environ := fun _ => [("PATH", "/usr/bin"); ("PIP_CONFIG_FILE", "/etc/pip.conf")];
  decode_utf8 := fun b => option_map string_of_list_ascii (Demo.utf8 b);
  json_loads := fun d => JSONDecodeError "Expecting value: line 1 column 1 (char 0)";
  path_join := fun dir name => dir +:+ "/" +:+ name;
  path_exists := fun p w => false;
  spawn := run;
  urlopen := fun url pki w => (UrlFailed (URLError "no network"), w);
  working_set := fun _ => ["Requests"; "pip"];
  add_entry := fun _ w => w;
  invalidate_caches := fun w => w;
  sleep := fun _ w => w;
  config_dir := fun w => Ok None;
  load_config := fun _ _ =>
    Ok {| dependencies_link := "https://example.org/dependencies.json";
          dependencies_link_requires_pki := false |};
  stdlib_packages := list_to_set ["os"; "sys"];
  normalize_package_names := fun s => s;
  key_cert_paths := fun w => (Ok ("/tmp/key", "/tmp/cert"), w);
  release_key_cert := ran ["<release key and cert>"];
  ca_path := fun _ => Ok "/etc/ssl/ca.pem";
  temporary_path := fun w => ("/tmp/combined", w);
  remove_temporary_path := fun p => ran ["<remove>"; p];
  combine_key_and_cert := fun _ _ _ w => (Ok tt, w);
|}.

Definition start : state world_t :=
  mkState {| history := []; pip_broken := false |} [].

Definition broken : state world_t :=
  mkState {| history := []; pip_broken := true |} [].

End Shell.

(** ** A third concrete world

    Python 3.11.4 again, with an override document that has entries at each
    level of the version tags, and under tags of other versions. *)

Module Tiers.

Record world_t : Type := { requests_served : nat }.

Definition document : dep_json_t :=
  [ ("python-2", [("pandas", [["echo"; "pandas"; "for"; "2"]])]);
    ("python-3",
       [("numpy", [["echo"; "numpy"; "for"; "3"]]);
        ("scipy", [["echo"; "scipy"; "for"; "3"]]);
        ("pandas", [["echo"; "pandas"; "for"; "3"]])]);
    ("python-3.1", [("pandas", [["echo"; "pandas"; "for"; "3.1"]])]);
    ("python-3.11",
       [("numpy", [["echo"; "numpy"; "for"; "3.11"]]);
        ("scipy", [["echo"; "scipy"; "for"; "3.11"]])]);
    ("python-3.11.4", [("numpy", [["echo"; "numpy"; "for"; "3.11.4"]])]);
    ("python-3.11.40", [("scipy", [["echo"; "scipy"; "for"; "3.11.40"]])]);
    ("python-3.12", [("flask", [["echo"; "flask"; "for"; "3.12"]])]) ].

#[export] Instance tiers_world : World world_t := {|
  version_info := (3, 11, 4);
  executable := "/usr/bin/python3";
  sys_path := fun _ => ["/usr/lib/python3.11/site-packages"];
  environ := fun _ => [("HOME", "/root")];
  decode_utf8 := fun b => option_map string_of_list_ascii (Demo.utf8 b);
  json_loads := fun d =>
    if String.eqb d "tiers" then Decoded document
    else JSONDecodeError "Expecting value: line 1 column 1 (char 0)";
  path_join := fun dir name => dir +:+ "/" +:+ name;
  path_exists := fun p w => false;
  spawn := fun cmd env w => (Exited 0 [] [], w);
  urlopen := fun url pki w =>
    (Body (String.list_byte_of_string "tiers"),
     {| requests_served := S (requests_served w) |});
  working_set := fun _ => ["pip"];
  add_entry := fun _ w => w;
  invalidate_caches := fun w => w;
  sleep := fun _ w => w;
  config_dir := fun w => Ok None;
  load_config := fun _ _ =>
    Ok {| dependencies_link := "https://example.org/dependencies.json";
          dependencies_link_requires_pki := false |};
  stdlib_packages := list_to_set ["os"; "sys"];
  normalize_package_names := fun s => s;
  key_cert_paths := fun w => (Ok ("/tmp/key", "/tmp/cert"), w);
  release_key_cert := fun w => w;
  ca_path := fun _ => Ok "/etc/ssl/ca.pem";
  temporary_path := fun w => ("/tmp/combined", w);
  remove_temporary_path := fun _ w => w;
  combine_key_and_cert := fun _ _ _ w => (Ok tt, w);
|}.

Definition start : state world_t := mkState {| requests_served := 0 |} [].

End Tiers.

(** * Theorems *)

(** ** The matcher is sound for the language of its expression *)

Module ReFacts.
Import Re.

Lemma matches_min_len r s : matches r s -> min_len r <= length s.
Proof.
  induction 1; simpl in *; try rewrite length_app; lia.
Qed.

Lemma matches_alphabet r s :
  matches r s -> Forall (fun c => alphabet r c = true) s.
Proof.
  induction 1; simpl in *.
  - constructor.
  - repeat constructor. apply Ascii.eqb_refl.
  - repeat constructor. assumption.
  - apply Forall_app. split.
    + eapply Forall_impl; [eassumption |]. simpl. intros c ->. reflexivity.
    + eapply Forall_impl; [eassumption |]. simpl. intros c ->. apply orb_true_r.
  - eapply Forall_impl; [eassumption |]. simpl. intros c ->. reflexivity.
  - eapply Forall_impl; [eassumption |]. simpl. intros c ->. apply orb_true_r.
  - constructor.
  - apply Forall_app. split; assumption.
Qed.

(** Whatever the matcher answers, it has read a text of the language and
    handed the rest to its continuation. *)
Lemma bt_sound r :
  forall s k res,
    bt r s k = Some res ->
    exists s1 s2, s = s1 ++ s2 /\ matches r s1 /\ k s2 = Some res.
Proof.
  induction r as [| c | ranges | r1 IH1 r2 IH2 | r1 IH1 r2 IH2 | r IH];
    intros s k res Hbt; simpl in Hbt.
  - exists [], s. repeat split; [constructor | assumption].
  - destruct s as [| c' s']; [discriminate |].
    destruct (Ascii.eqb c c') eqn:E; [| discriminate].
    apply Ascii.eqb_eq in E. subst c'.
    exists [c], s'. repeat split; [constructor | assumption].
  - destruct s as [| c' s']; [discriminate |].
    destruct (in_class ranges c') eqn:E; [| discriminate].
    exists [c'], s'. repeat split; [constructor; assumption | assumption].
  - apply IH1 in Hbt. destruct Hbt as (s1 & s2 & -> & M1 & Hk).
    apply IH2 in Hk. destruct Hk as (t1 & t2 & -> & M2 & Hk).
    exists (s1 ++ t1), t2. rewrite <- app_assoc.
    repeat split; [constructor; assumption | assumption].
  - destruct (bt r1 s k) as [rest |] eqn:E.
    + apply IH1 in E. destruct E as (s1 & s2 & -> & M1 & Hk).
      exists s1, s2. repeat split; [apply m_alt_l; assumption | congruence].
    + apply IH2 in Hbt. destruct Hbt as (s1 & s2 & -> & M2 & Hk).
      exists s1, s2. repeat split; [apply m_alt_r; assumption | assumption].
  - revert Hbt. generalize (length s) at 1. intros fuel. revert s.
    induction fuel as [| fuel IHf]; intros s Hbt.
    + exists [], s. repeat split; [constructor | assumption].
    + match type of Hbt with
      | match ?scrutinee with _ => _ end = _ => destruct scrutinee as [rest |] eqn:E
      end.
      * injection Hbt as ->.
        apply IH in E. destruct E as (s1 & s2 & -> & M1 & Hk).
        destruct (length s2 <? length (s1 ++ s2))%nat; [| discriminate].
        apply IHf in Hk. destruct Hk as (t1 & t2 & -> & M2 & Hk).
        exists (s1 ++ t1), t2. rewrite <- app_assoc.
        repeat split; [constructor; assumption | assumption].
      * exists [], s. repeat split; [constructor | assumption].
Qed.

Lemma match_len_sound r s n :
  match_len r s = Some n ->
  matches r (take n s) /\ s = take n s ++ drop n s.
Proof.
  unfold match_len. intros Hm.
  destruct (bt r s Some) as [rest |] eqn:E; [| discriminate].
  injection Hm as <-.
  apply bt_sound in E. destruct E as (s1 & s2 & -> & M & Hk).
  injection Hk as <-.
  rewrite length_app.
  replace (length s1 + length s2 - length s2)%nat with (length s1) by lia.
  rewrite take_app_length, drop_app_length. auto.
Qed.

(** Every text that the scan reports is in the language, and is a piece of
    the subject. *)
Lemma scan_sound r :
  forall s skip t,
    In t (scan r skip s) ->
    matches r t /\ exists pre post, s = pre ++ t ++ post.
Proof.
  induction s as [| c s IH]; intros skip t Hin; simpl in Hin.
  - destruct skip; [| contradiction].
    destruct (match_len r []) as [n |] eqn:E; [| contradiction].
    destruct Hin as [<- | []].
    apply match_len_sound in E. destruct E as [M _].
    rewrite take_nil in M. split; [assumption |]. exists [], []. reflexivity.
  - destruct skip as [| skip].
    + destruct (match_len r (c :: s)) as [n |] eqn:E.
      * destruct Hin as [<- | Hin].
        -- apply match_len_sound in E. destruct E as [M Hs].
           split; [assumption |].
           exists [], (drop n (c :: s)). simpl app at 1. exact Hs.
        -- apply IH in Hin. destruct Hin as [M (pre & post & ->)].
           split; [assumption |]. exists (c :: pre), post. reflexivity.
      * apply IH in Hin. destruct Hin as [M (pre & post & ->)].
        split; [assumption |]. exists (c :: pre), post. reflexivity.
    + apply IH in Hin. destruct Hin as [M (pre & post & ->)].
      split; [assumption |]. exists (c :: pre), post. reflexivity.
Qed.

End ReFacts.

(** ** Input normalization *)

Module TextFacts.

Lemma length_string_of_list_ascii (t : list ascii) :
  String.length (string_of_list_ascii t) = length t.
Proof. induction t as [| c t IH]; simpl; congruence. Qed.

Lemma string_of_list_ascii_app (a b : list ascii) :
  string_of_list_ascii (a ++ b) = string_of_list_ascii a +:+ string_of_list_ascii b.
Proof.
  induction a as [| c a IH]; [reflexivity |].
  simpl. rewrite IH. reflexivity.
Qed.

Lemma lstrip_no_space (t : list ascii) :
  Forall (fun c => Text.is_space c = false) t -> Text.lstrip t = t.
Proof.
  destruct 1 as [| c t Hc _]; simpl; [reflexivity |]. rewrite Hc. reflexivity.
Qed.

Lemma strip_no_space (t : list ascii) :
  Forall (fun c => Text.is_space c = false) t ->
  Text.strip (string_of_list_ascii t) = string_of_list_ascii t.
Proof.
  intros Ht. unfold Text.strip, Text.strip_chars.
  rewrite list_ascii_of_string_of_list_ascii.
  rewrite (lstrip_no_space t Ht).
  rewrite (lstrip_no_space (rev t)); [| apply Forall_rev; exact Ht].
  rewrite rev_involutive. reflexivity.
Qed.

End TextFacts.

Lemma pattern_alphabet_no_space (c : ascii) :
  alphabet package_name_pattern c = true -> Text.is_space c = false.
Proof.
  destruct c as [[] [] [] [] [] [] [] []]; vm_compute; congruence.
Qed.

Lemma pattern_min_len : min_len package_name_pattern = 2.
Proof. reflexivity. Qed.

(** Where the elements of the extracted set come from: each is the text of
    one match of the pattern in the joined input. *)
Lemma get_pkg_names_elem (x : pkg_arg) (p : string) :
  p ∈ get_pkg_names x ->
  exists t pre post,
    p = string_of_list_ascii t
    /\ matches package_name_pattern t
    /\ list_ascii_of_string (joined x) = pre ++ t ++ post.
Proof.
  unfold get_pkg_names. rewrite elem_of_list_to_set, list_elem_of_filter.
  intros [_ Hin]. apply list_elem_of_In, in_map_iff in Hin.
  destruct Hin as (q & <- & Hq).
  unfold valid_pkg_names, findall in Hq. apply in_map_iff in Hq.
  destruct Hq as (t & <- & Ht).
  apply ReFacts.scan_sound in Ht. destruct Ht as [Hm (pre & post & Hs)].
  exists t, pre, post. split; [| split; assumption].
  apply TextFacts.strip_no_space.
  eapply Forall_impl; [apply ReFacts.matches_alphabet; exact Hm |].
  apply pattern_alphabet_no_space.
Qed.

(** C8.  Whatever is passed to [get_pkg_names], a string or a sequence of
    strings (joined with spaces), the call returns a set, without raising,
    and every element of that set is a text of the safelist pattern's
    language, is a substring of the joined input, is trimmed and is not
    empty; the set lists no element twice.  So what does not match the
    pattern has been dropped. *)
Theorem get_pkg_names_safelist (x : pkg_arg) (p : string) :
  p ∈ get_pkg_names x ->
  matches package_name_pattern (list_ascii_of_string p)
  /\ (exists pre post, joined x = pre +:+ p +:+ post)
  /\ Text.strip p = p
  /\ p <> ""
  /\ NoDup (elements (get_pkg_names x)).
Proof.
  intros Hin. destruct (get_pkg_names_elem x p Hin) as (t & pre & post & -> & Hm & Hs).
  assert (Hns : Forall (fun c => Text.is_space c = false) t).
  { eapply Forall_impl; [apply ReFacts.matches_alphabet; exact Hm |].
    apply pattern_alphabet_no_space. }
  repeat split.
  - rewrite list_ascii_of_string_of_list_ascii. exact Hm.
  - exists (string_of_list_ascii pre), (string_of_list_ascii post).
    rewrite <- !TextFacts.string_of_list_ascii_app, <- Hs.
    symmetry. apply string_of_list_ascii_of_string.
  - apply TextFacts.strip_no_space. exact Hns.
  - intros E. apply ReFacts.matches_min_len in Hm.
    rewrite pattern_min_len in Hm.
    apply (f_equal String.length) in E.
    rewrite TextFacts.length_string_of_list_ascii in E. simpl in E. lia.
  - apply NoDup_elements.
Qed.

Lemma get_pkg_names_safelist_witness :
  matches package_name_pattern (list_ascii_of_string "numpy>=1.2")
  /\ (exists pre post,
        joined (StrSeq ["numpy>=1.2"; "os"; "not a valid!!pkg"]) = pre +:+ "numpy>=1.2" +:+ post)
  /\ Text.strip "numpy>=1.2" = "numpy>=1.2"
  /\ "numpy>=1.2" <> ""
  /\ NoDup (elements (get_pkg_names (StrSeq ["numpy>=1.2"; "os"; "not a valid!!pkg"]))).
Proof.
  apply (get_pkg_names_safelist (StrSeq ["numpy>=1.2"; "os"; "not a valid!!pkg"]) "numpy>=1.2").
  apply (bool_decide_unpack _). vm_compute. exact I.
Defined.

(** C10.  No element of the set returned by [get_pkg_names] has fewer than
    two characters: the pattern asks for a letter and at least one more name
    character, so a one-character token never gets through. *)
Theorem get_pkg_names_no_single_char (x : pkg_arg) (p : string) :
  p ∈ get_pkg_names x -> 2 <= String.length p.
Proof.
  intros Hin. destruct (get_pkg_names_elem x p Hin) as (t & pre & post & -> & Hm & _).
  rewrite TextFacts.length_string_of_list_ascii.
  apply ReFacts.matches_min_len in Hm. rewrite pattern_min_len in Hm. exact Hm.
Qed.

Lemma get_pkg_names_no_single_char_witness :
  2 <= String.length "pandas".
Proof.
  apply (get_pkg_names_no_single_char (OneStr "x pandas y z") "pandas").
  apply (bool_decide_unpack _). vm_compute. exact I.
Defined.

(** A one-letter name on its own yields nothing. *)
Example get_pkg_names_single_letter :
  get_pkg_names (OneStr "x") = ∅ /\ get_pkg_names (StrSeq ["q"; "R"; "numpy"]) = {["numpy"]}.
Proof. split; apply set_eq; intros y; vm_compute; tauto. Qed.

(** ** Dictionaries *)

Lemma dict_get_set_eq {V} (k : string) (v : V) (d : dict V) :
  dict_get k (dict_set k v d) = Some v.
Proof.
  induction d as [| [k' v'] d IH]; simpl.
  - rewrite String.eqb_refl. reflexivity.
  - destruct (String.eqb k k') eqn:E; simpl; rewrite E; [reflexivity | exact IH].
Qed.

Lemma dict_get_set_ne {V} (k k' : string) (v : V) (d : dict V) :
  k <> k' -> dict_get k (dict_set k' v d) = dict_get k d.
Proof.
  intros Hne. induction d as [| [k0 v0] d IH]; simpl.
  - destruct (String.eqb k k') eqn:E; [| reflexivity].
    apply String.eqb_eq in E. contradiction.
  - destruct (String.eqb k' k0) eqn:E0; simpl.
    + apply String.eqb_eq in E0. subst k0.
      destruct (String.eqb k k') eqn:E; [| reflexivity].
      apply String.eqb_eq in E. contradiction.
    + rewrite IH. reflexivity.
Qed.

(** ** One pass of [find_overrides] *)

Section Passes.

Variable table : dict commands.

Lemma pass_keeps (pkgs : list string) :
  forall overrides pkg cmds,
    dict_get pkg table = Some cmds ->
    dict_get pkg overrides = Some cmds ->
    dict_get pkg (fold_left (override_pass table) pkgs overrides) = Some cmds.
Proof.
  induction pkgs as [| q pkgs IH]; intros overrides pkg cmds Ht Ho; simpl.
  - exact Ho.
  - apply IH; [exact Ht |]. unfold override_pass.
    destruct (dict_get q table) as [c |] eqn:Eq; [| exact Ho].
    destruct (decide (pkg = q)) as [-> | Hne].
    + rewrite dict_get_set_eq. congruence.
    + rewrite dict_get_set_ne by exact Hne. exact Ho.
Qed.

Lemma pass_sets (pkgs : list string) :
  forall overrides pkg cmds,
    In pkg pkgs ->
    dict_get pkg table = Some cmds ->
    dict_get pkg (fold_left (override_pass table) pkgs overrides) = Some cmds.
Proof.
  induction pkgs as [| q pkgs IH]; intros overrides pkg cmds Hin Ht; simpl.
  - contradiction.
  - destruct Hin as [-> | Hin].
    + apply pass_keeps; [exact Ht |]. unfold override_pass. rewrite Ht.
      apply dict_get_set_eq.
    + apply IH; assumption.
Qed.

Lemma pass_skips (pkgs : list string) :
  forall overrides pkg,
    dict_get pkg table = None \/ ~ In pkg pkgs ->
    dict_get pkg (fold_left (override_pass table) pkgs overrides) = dict_get pkg overrides.
Proof.
  induction pkgs as [| q pkgs IH]; intros overrides pkg Hno; simpl.
  - reflexivity.
  - rewrite IH.
    + unfold override_pass. destruct (dict_get q table) as [c |] eqn:Eq; [| reflexivity].
      apply dict_get_set_ne. intros ->.
      destruct Hno as [Hn | Hn]; [congruence |]. apply Hn. left. reflexivity.
    + destruct Hno as [Hn | Hn]; [left; exact Hn |].
      right. intros Hin. apply Hn. right. exact Hin.
Qed.

End Passes.

Lemma apply_tag_requested (dep_json : dep_json_t) (tag : string)
    (pkgs : list string) (overrides : dict commands) (pkg : string) :
  In pkg pkgs ->
  dict_get pkg (apply_tag dep_json tag pkgs overrides) =
    match override_entry dep_json tag pkg with
    | Some cmds => Some cmds
    | None => dict_get pkg overrides
    end.
Proof.
  intros Hin. unfold apply_tag, override_entry.
  destruct (dict_get tag dep_json) as [table |]; [| reflexivity].
  destruct (dict_get pkg table) as [cmds |] eqn:E.
  - apply pass_sets; assumption.
  - apply pass_skips. left. exact E.
Qed.


(** ** The module's functions, in any world *)

Section Facts.

Context {W : Type} `{World W}.

Lemma bind_ok_inv {A B} (m : M W A) (k : A -> M W B) st b st' :
  bind m k st = (Ok b, st') ->
  exists a st1, m st = (Ok a, st1) /\ k a st1 = (Ok b, st').
Proof.
  unfold bind. destruct (m st) as [[a | e] st1]; intros Hk.
  - exists a, st1. split; [reflexivity | exact Hk].
  - discriminate.
Qed.

Lemma for_each_logger (lvl : level) (fmt : string) (l : list string) :
  forall st : state W,
    for_each l (fun x => logger lvl fmt [x]) st
    = (Ok tt, mkState (world st) (trace st ++ map (fun x => EvLog lvl fmt [x]) l)).
Proof.
  induction l as [| x l IH]; intros [w t]; simpl.
  - unfold ret. rewrite app_nil_r. reflexivity.
  - unfold bind, logger, emit. simpl. rewrite IH. simpl.
    rewrite <- app_assoc. reflexivity.
Qed.

(** C7.  [subtract_stdlib] returns its argument minus the standard-library
    set, nothing more and nothing less, and logs one warning for each name of
    the argument that is in the standard-library set (each such name once,
    and no other name); it touches nothing else. *)
Theorem subtract_stdlib_exact (packages : gset string) (st : state W) :
  let removed := elements (packages ∩ stdlib_packages) in
  subtract_stdlib packages st
  = (Ok (packages ∖ stdlib_packages),
     mkState (world st)
       (trace st ++ map (fun name => EvLog WARNING stdlib_skip_format [name]) removed))
  /\ NoDup removed
  /\ (forall name, name ∈ removed <-> name ∈ packages /\ name ∈ stdlib_packages)
  /\ (forall name,
        name ∈ packages ∖ stdlib_packages <-> name ∈ packages /\ name ∉ stdlib_packages).
Proof.
  intros removed. split; [| split; [| split]].
  - unfold subtract_stdlib, bind. rewrite for_each_logger. reflexivity.
  - apply NoDup_elements.
  - intros name. subst removed. rewrite elem_of_elements. set_solver.
  - intros name. set_solver.
Qed.

(** C9.  With nothing requested, [find_overrides] answers with the empty
    table and leaves the world and the trace as they were: the override
    document is not fetched. *)
Theorem find_overrides_nothing_requested (config : Config) (st : state W) :
  find_overrides ∅ config st = (Ok [], st).
Proof.
  unfold find_overrides. rewrite size_empty. reflexivity.
Qed.


(** C5, as amended.  When the server answers with an HTTP error whose body
    is UTF-8 text, or the fetched body is UTF-8 text that [json.loads]
    rejects, [read_dependencies_json] logs that text or message as an error
    and returns the empty table; [find_overrides] then returns no override,
    without raising.  Every other failure of the fetch goes to the caller:
    the exception that [urlopen] raises when it is not an [HTTPError], and
    the [UnicodeDecodeError] of a body, of the answer or of the HTTP error,
    that is not UTF-8; nothing is logged then, and [find_overrides] raises
    the same exception. *)
Theorem read_dependencies_json_http_or_decode_failure (config : Config)
    (st : state W) (w' : W) :
  let link := dependencies_link config in
  let pki := dependencies_link_requires_pki config in
  let requested := mkState w' (trace st ++ [EvUrlopen link pki]) in
  (forall msg,
      (exists body,
          urlopen link pki (world st) = (HTTPError body, w')
          /\ decode_utf8 body = Some msg)
      \/ (exists b d,
            urlopen link pki (world st) = (Body b, w')
            /\ decode_utf8 b = Some d
            /\ json_loads d = JSONDecodeError msg) ->
      let logged := mkState w' (trace st ++ [EvUrlopen link pki; EvLog ERROR msg []]) in
      read_dependencies_json config st = (Ok [], logged)
      /\ (forall packages, packages <> ∅ ->
            find_overrides packages config st = (Ok [], logged)))
  /\ (forall e,
        (urlopen link pki (world st) = (UrlFailed e, w')
         \/ (exists body,
               urlopen link pki (world st) = (HTTPError body, w')
               /\ decode_utf8 body = None /\ e = UnicodeDecodeError)
         \/ (exists b,
               urlopen link pki (world st) = (Body b, w')
               /\ decode_utf8 b = None /\ e = UnicodeDecodeError)) ->
        read_dependencies_json config st = (Raise e, requested)
        /\ (forall packages, packages <> ∅ ->
              find_overrides packages config st = (Raise e, requested))).
Proof.
  intros link pki requested.
  assert (Hfind : forall (r : result dep_json_t) (r' : result (dict commands)) st1,
            read_dependencies_json config st = (r, st1) ->
            (forall d, r = Ok d -> d = [] /\ r' = Ok []) ->
            (forall e, r = Raise e -> r' = Raise e) ->
            forall packages, packages <> ∅ ->
              find_overrides packages config st = (r', st1)).
  { intros r r' st1 Hread Hok Hraise packages Hne. unfold find_overrides.
    assert (Hsz : (size packages =? 0)%nat = false).
    { apply Nat.eqb_neq. intros Hz. apply Hne.
      apply leibniz_equiv, size_empty_iff. exact Hz. }
    rewrite Hsz. unfold bind. rewrite Hread. destruct r as [d | e].
    - destruct (Hok d eq_refl) as [-> ->]. reflexivity.
    - rewrite (Hraise e eq_refl). reflexivity. }
  split.
  - intros msg Hfail logged.
    assert (Hread : read_dependencies_json config st = (Ok [], logged)).
    { unfold read_dependencies_json, open_and_read, bind, emit, step, str_utf8,
        logger, emit, ret. simpl. fold link pki.
      destruct Hfail as [(body & Hu & Hd) | (b & d & Hu & Hd & Hj)].
      - rewrite Hu. simpl. rewrite Hd. simpl.
        subst logged. rewrite <- app_assoc. reflexivity.
      - rewrite Hu. simpl. rewrite Hd. simpl. rewrite Hj. simpl.
        subst logged. rewrite <- app_assoc. reflexivity. }
    split; [exact Hread |].
    apply (Hfind _ _ _ Hread).
    + intros d Hd. injection Hd as <-. split; reflexivity.
    + intros e He. discriminate.
  - intros e Hfail.
    assert (Hread : read_dependencies_json config st = (Raise e, requested)).
    { unfold read_dependencies_json, open_and_read, bind, emit, step, str_utf8,
        raise. simpl. fold link pki.
      destruct Hfail as [Hu | [(body & Hu & Hd & ->) | (b & Hu & Hd & ->)]].
      - rewrite Hu. reflexivity.
      - rewrite Hu. simpl. rewrite Hd. reflexivity.
      - rewrite Hu. simpl. rewrite Hd. reflexivity. }
    split; [exact Hread |].
    apply (Hfind _ _ _ Hread).
    + intros d Hd. discriminate.
    + intros e0 He. injection He as <-. reflexivity.
Qed.

(** What holds of the configuration check.  (a) When a pip configuration is
    named, the configuration directory is known and the file is not there, [pip] logs one error and returns at
    once: the world is as before and the trace has gained that one entry, so
    no installed set was computed, no override was run and no subprocess was
    started.  (b) When no configuration is named, [pip_config_found] answers
    [True], whatever the path, and logs nothing.  (c) [pip_config_found]
    answers [False], the one answer on which [pip] returns early, only when
    a configuration is named and its file does not exist. *)
Lemma pip_missing_config_hard_stop :
  (forall requested verbose use_pki use_overrides name dir ipydeps_config
          (st : state W),
      config_dir (world st) = Ok (Some dir) ->
      load_config (Some dir) (world st) = Ok ipydeps_config ->
      path_exists (path_join dir name) (world st) = false ->
      pip requested verbose use_pki use_overrides (Some name) st
      = (Ok tt,
         mkState (world st)
           (trace st ++ [EvLog ERROR config_missing_format [name; path_join dir name]])))
  /\ (forall pip_config_path (st : state W),
        pip_config_found None pip_config_path st = (Ok true, st))
  /\ (forall config_name pip_config_path (st st' : state W),
        pip_config_found config_name pip_config_path st = (Ok false, st') ->
        exists name path,
          config_name = Some name /\ pip_config_path = Some path
          /\ path_exists path (world st) = false).
Proof.
  split; [| split].
  - intros requested verbose use_pki use_overrides name dir cfg st Hdir Hcfg Hex.
    unfold pip, bind, query, lift. rewrite Hdir, Hcfg. simpl.
    unfold bind, ask. simpl. rewrite Hex. reflexivity.
  - reflexivity.
  - intros config_name pip_config_path st st' Hf.
    destruct config_name as [name |]; simpl in Hf; [| discriminate].
    destruct pip_config_path as [path |]; [| discriminate].
    exists name, path. repeat split.
    unfold bind, ask in Hf. simpl in Hf.
    destruct (path_exists path (world st)); [discriminate | reflexivity].
Qed.

End Facts.

Section Completion.

Context {W : Type} `{World W}.

Lemma query_ok_inv {A} (f : W -> result A) (st st' : state W) a :
  query f st = (Ok a, st') -> f (world st) = Ok a /\ st' = st.
Proof. unfold query. intros E. injection E as E1 E2. auto. Qed.

Lemma lift_ok_inv {A} (r : result A) (st st' : state W) a :
  lift r st = (Ok a, st') -> r = Ok a /\ st' = st.
Proof. unfold lift. intros E. injection E as E1 E2. auto. Qed.

Lemma subtract_installed_raises (already_installed requested : gset string) :
  subtract_installed already_installed requested = Raise (NameError "packages").
Proof. reflexivity. Qed.

(** [pip] returns normally only by its early return at the configuration
    check: past that check every run ends in an exception, at the latest in
    [subtract_installed]. *)
Lemma pip_returns_only_at_config_check requested verbose use_pki use_overrides
    config (st st' : state W) :
  pip requested verbose use_pki use_overrides config st = (Ok tt, st') ->
  exists name dir,
    config = Some name
    /\ config_dir (world st) = Ok (Some dir)
    /\ path_exists (path_join dir name) (world st) = false
    /\ st' = mkState (world st)
               (trace st ++ [EvLog ERROR config_missing_format [name; path_join dir name]]).
Proof.
  intros Hpip. unfold pip in Hpip.
  apply bind_ok_inv in Hpip. destruct Hpip as (configs_path & st1 & Hq & Hpip).
  apply query_ok_inv in Hq. destruct Hq as [Hdir ->].
  apply bind_ok_inv in Hpip. destruct Hpip as (cfg & st1 & Hq & Hpip).
  apply query_ok_inv in Hq. destruct Hq as [Hcfg ->].
  apply bind_ok_inv in Hpip. destruct Hpip as (path & st1 & Hq & Hpip).
  apply lift_ok_inv in Hq. destruct Hq as [Hpath ->].
  apply bind_ok_inv in Hpip. destruct Hpip as (found & st1 & Hfound & Hpip).
  destruct found; simpl in Hpip.
  - exfalso.
    apply bind_ok_inv in Hpip. destruct Hpip as (before & st2 & _ & Hpip).
    apply bind_ok_inv in Hpip. destruct Hpip as (req & st3 & _ & Hpip).
    apply bind_ok_inv in Hpip. destruct Hpip as (u & st4 & _ & Hpip).
    apply bind_ok_inv in Hpip. destruct Hpip as (req' & st5 & Hsub & _).
    apply lift_ok_inv in Hsub. destruct Hsub as [Hsub _].
    rewrite subtract_installed_raises in Hsub. discriminate.
  - injection Hpip as <-.
    destruct config as [name |]; simpl in Hfound; [| discriminate].
    destruct path as [p |]; [| discriminate].
    unfold bind, ask in Hfound. simpl in Hfound.
    destruct (path_exists p (world st)) eqn:Hex; [discriminate |].
    injection Hfound as <-.
    destruct configs_path as [dir |]; simpl in Hpath; [| discriminate].
    injection Hpath as <-.
    exists name, dir. auto.
Qed.

(** C4, where the code goes wrong.  A package key with a capital letter and
    no all-lowercase twin makes [case_insensitive_dependencies_json] raise
    [KeyError]: the commands are looked up under the lowercased key.  With
    the twin present, the table keeps the twin's commands, not those of the
    later, capitalised key. *)
Theorem case_insensitive_dependencies_json_lowercased_lookup (st : state W) :
  case_insensitive_dependencies_json
    [("python-3", [("NumPy", [["echo"; "hi"]])])] st
  = (Raise (KeyError "numpy"), st)
  /\ case_insensitive_dependencies_json
       [("python-3", [("numpy", [["echo"; "lower"]]); ("NumPy", [["echo"; "upper"]])])] st
     = (Ok [("python-3", [("numpy", [["echo"; "lower"]])])],
        mkState (world st)
          (trace st ++
             [EvLog WARNING
                "Duplicate package name %s in dependencies JSON.  Package names are case-insensitive.  Overwriting!"
                ["numpy"]])).
Proof.
  split.
  - reflexivity.
  - destruct st as [w t]. reflexivity.
Qed.

End Completion.

(** ** Runs in the concrete world *)

Module Runs.
Import Demo.

(** C1, where the code goes wrong.  [subtract_installed] never returns a
    set: it reads the unbound name [packages] and raises [NameError], also
    when every requested name is installed, where the empty set is due.
    [pip], asked for the installed [numpy], ends in that exception (no
    install subprocess has run by then). *)
Theorem subtract_installed_subset_raises :
  subtract_installed {["numpy"; "pip"]} {["numpy"]} = Raise (NameError "packages")
  /\ (forall already_installed requested,
        subtract_installed already_installed requested <> Ok ∅)
  /\ pip (OneStr "numpy") false false true None (start serving)
     = (Raise (NameError "packages"),
        mkState serving
          [freeze; EvLog INFO "Packages currently installed: %s" ["numpy"]]).
Proof.
  split; [reflexivity | split].
  - intros a r. rewrite subtract_installed_raises. discriminate.
  - vm_compute. reflexivity.
Qed.

(** C2, where the code goes wrong.  Asked for [requests], which is not
    installed, [pip] does not run to completion: after the first listing of
    the installed packages it raises [NameError] out of
    [subtract_installed]; no install is attempted and no before/after
    report is logged. *)
Theorem pip_does_not_complete :
  pip (OneStr "requests") false false true None (start serving)
  = (Raise (NameError "packages"), mkState serving [freeze]).
Proof. vm_compute. reflexivity. Qed.

(** C5, as stated, fails: when the host cannot be reached [urlopen] raises
    [URLError], which [read_dependencies_json] does not catch; and when the
    body of an HTTP error is not UTF-8, the handler itself raises while it
    builds the message to log. *)
Lemma read_dependencies_json_unreachable_raises :
  read_dependencies_json config (start unreachable)
  = (Raise (URLError "[Errno 111] Connection refused"), mkState unreachable [fetch])
  /\ fst (read_dependencies_json config (start unreachable)) <> Ok []
  /\ read_dependencies_json config (start garbled)
     = (Raise UnicodeDecodeError, mkState garbled [fetch]).
Proof.
  split; [vm_compute; reflexivity | split].
  - vm_compute. discriminate.
  - vm_compute. reflexivity.
Qed.

Lemma read_dependencies_json_http_or_decode_failure_witness :
  (read_dependencies_json config (start not_found)
   = (Ok [], mkState not_found [fetch; EvLog ERROR "Not Found" []])
   /\ (forall packages, packages <> ∅ ->
         find_overrides packages config (start not_found)
         = (Ok [], mkState not_found [fetch; EvLog ERROR "Not Found" []])))
  /\ (read_dependencies_json config (start unreachable)
      = (Raise (URLError "[Errno 111] Connection refused"), mkState unreachable [fetch])
      /\ (forall packages, packages <> ∅ ->
            find_overrides packages config (start unreachable)
            = (Raise (URLError "[Errno 111] Connection refused"),
               mkState unreachable [fetch]))).
Proof.
  split.
  - apply (proj1 (read_dependencies_json_http_or_decode_failure config (start not_found)
                    not_found) "Not Found").
    left. exists (String.list_byte_of_string "Not Found").
    split; vm_compute; reflexivity.
  - apply (proj2 (read_dependencies_json_http_or_decode_failure config (start unreachable)
                    unreachable) (URLError "[Errno 111] Connection refused")).
    left. reflexivity.
Defined.

Lemma pip_missing_config_hard_stop_witness :
  pip (OneStr "numpy") false false true (Some "missing.conf") (start with_configs)
  = (Ok tt,
     mkState with_configs
       [EvLog ERROR config_missing_format ["missing.conf"; "/etc/ipydeps/missing.conf"]]).
Proof.
  assert (Hdir : config_dir (world (start with_configs)) = Ok (Some "/etc/ipydeps"))
    by reflexivity.
  assert (Hcfg : load_config (Some "/etc/ipydeps") (world (start with_configs)) = Ok config)
    by reflexivity.
  assert (Hex : path_exists (path_join "/etc/ipydeps" "missing.conf")
                  (world (start with_configs)) = false)
    by (vm_compute; reflexivity).
  exact (proj1 pip_missing_config_hard_stop (OneStr "numpy") false false true
           "missing.conf" "/etc/ipydeps" config (start with_configs) Hdir Hcfg Hex).
Defined.

(** C6, where the code goes wrong.  The missing configuration file is not
    the only case in which [pip] stops short.  With a configuration named
    and no configuration directory, the resolved path is [None] and the
    check raises [AttributeError] instead of logging the error and
    returning.  And where the check passes, with no configuration named or
    with one whose file is there, [pip] does not go on to the end either:
    it raises [NameError] after the first listing of the installed
    packages. *)
Theorem pip_stops_beyond_missing_config :
  pip (OneStr "numpy") false false true (Some "pip.conf") (start serving)
  = (Raise (AttributeError "exists"), start serving)
  /\ pip (OneStr "pandas") false false false None (start serving)
     = (Raise (NameError "packages"), mkState serving [freeze])
  /\ pip (OneStr "pandas") false false true (Some "pip.conf") (start with_configs)
     = (Raise (NameError "packages"), mkState with_configs [freeze]).
Proof. repeat split; vm_compute; reflexivity. Qed.

End Runs.

Module TierRuns.
Import Tiers.


End TierRuns.

(** * Further properties of the module *)

(** ** Child processes *)

Section Subprocesses.

Context {W : Type} `{World W}.

(** X1.  [run_get_stderr] turns the exit of the child into a value: exit
    status 0 gives [(0, None)]; any other status gives the status and the
    decoded standard error, and no exception; only a standard error that is
    not UTF-8 makes it raise.  In each case exactly one process was
    started. *)
Theorem run_get_stderr_outcome (cmd : list string) (env : environment)
    (st : state W) (rc : Z) (out err : bytes) (w' : W) :
  spawn cmd env (world st) = (Exited rc out err, w') ->
  run_get_stderr cmd env st
  = (if (rc =? 0)%Z then Ok (0%Z, None)
     else match decode_utf8 err with
          | Some text => Ok (rc, Some text)
          | None => Raise UnicodeDecodeError
          end,
     mkState w' (trace st ++ [EvSpawn cmd env])).
Proof.
  intros Hs. unfold run_get_stderr, check_output, bind, emit, step. simpl.
  rewrite Hs. simpl.
  destruct (rc =? 0)%Z; simpl; [reflexivity |].
  unfold str_utf8, ret, raise. destruct (decode_utf8 err); reflexivity.
Qed.

(** X2.  A program that cannot be started is not handled by
    [run_get_stderr]: the exception of the spawn comes out as it is. *)
Theorem run_get_stderr_spawn_failure (cmd : list string) (env : environment)
    (st : state W) (e : exn) (w' : W) :
  spawn cmd env (world st) = (SpawnFailed e, w') ->
  (forall rc stderr, e <> CalledProcessError rc stderr) ->
  run_get_stderr cmd env st
  = (Raise e, mkState w' (trace st ++ [EvSpawn cmd env])).
Proof.
  intros Hs Hne. unfold run_get_stderr, check_output, bind, emit, step. simpl.
  rewrite Hs. simpl. unfold raise.
  destruct e; try reflexivity. exfalso. eapply Hne. reflexivity.
Qed.

(** X3.  [run_and_log_error] runs the command in the current environment,
    and logs the decoded standard error, as one error entry, exactly when
    the exit status is not 0; it returns normally either way. *)
Theorem run_and_log_error_logs_failure (cmd : list string) (st : state W)
    (rc : Z) (out err : bytes) (text : string) (w' : W) :
  spawn cmd (environ (world st)) (world st) = (Exited rc out err, w') ->
  decode_utf8 err = Some text ->
  run_and_log_error cmd st
  = (Ok tt,
     mkState w'
       (trace st ++ EvSpawn cmd (environ (world st))
          :: (if (rc =? 0)%Z then [] else [EvLog ERROR text []]))).
Proof.
  intros Hs Hd. unfold run_and_log_error, bind, ask. simpl.
  unfold run_get_stderr, check_output, bind, emit, step. simpl.
  rewrite Hs. simpl.
  destruct (rc =? 0)%Z eqn:E; simpl.
  - reflexivity.
  - unfold str_utf8, ret. rewrite Hd. simpl. rewrite E.
    unfold logger, emit. simpl. rewrite <- app_assoc. reflexivity.
Qed.

(** X4.  Without PKI, [run_pip] starts exactly one process, whatever comes
    of it: the interpreter with [-m pip install], then [-vvv] when verbose,
    then the packages.  Its environment is the current one, with
    [PIP_CONFIG_FILE] set to the configuration path when there is one and
    every other variable as it was. *)
Theorem run_pip_command_line (packages : list string) (verbose : bool)
    (pip_config_path : option string) (st : state W) :
  let cmd :=
    [executable; "-m"; "pip"; "install"] ++ (if verbose then ["-vvv"] else [])
      ++ packages in
  exists env,
    trace (snd (run_pip packages false verbose pip_config_path st))
    = trace st ++ [EvSpawn cmd env]
    /\ forall k,
         dict_get k env =
           match pip_config_path with
           | Some p =>
               if String.eqb k "PIP_CONFIG_FILE" then Some p
               else dict_get k (environ (world st))
           | None => dict_get k (environ (world st))
           end.
Proof.
  intros cmd.
  exists (match pip_config_path with
          | Some p => dict_set "PIP_CONFIG_FILE" p (environ (world st))
          | None => environ (world st)
          end).
  split.
  - unfold run_pip, bind, ask. simpl.
    unfold run_get_stderr, check_output, bind, emit, step. simpl.
    match goal with
    | |- context [spawn ?c0 ?e0 ?w0] => destruct (spawn c0 e0 w0) as [[rc out err | e] w']
    end; simpl.
    + destruct (rc =? 0)%Z; simpl; [reflexivity |].
      unfold str_utf8, ret, raise. destruct (decode_utf8 err); reflexivity.
    + unfold raise. destruct e; try reflexivity.
      destruct stderr; [| reflexivity].
      unfold bind, str_utf8, ret, raise. destruct (decode_utf8 b); reflexivity.
  - intros k. destruct pip_config_path as [p |]; [| reflexivity].
    destruct (String.eqb k "PIP_CONFIG_FILE") eqn:E.
    + apply String.eqb_eq in E. subst k. apply dict_get_set_eq.
    + apply dict_get_set_ne. intros ->. rewrite String.eqb_refl in E. discriminate.
Qed.

(** X5.  With PKI, once the key and certificate files and the CA path are
    at hand, [run_pip] removes the temporary combined file and releases the
    key and certificate files before it returns or raises, whatever the
    combining step and the install process did. *)
Theorem run_pip_pki_cleans_up (packages : list string) (verbose : bool)
    (pip_config_path : option string) (st : state W)
    (key cert ca : string) (w1 : W) :
  key_cert_paths (world st) = (Ok (key, cert), w1) ->
  ca_path w1 = Ok ca ->
  exists w3,
    world (snd (run_pip packages true verbose pip_config_path st))
    = release_key_cert (remove_temporary_path (fst (temporary_path w1)) w3).
Proof.
  intros Hk Hca. unfold run_pip, bind, ask, call. simpl. rewrite Hk. simpl.
  unfold finally at 1. unfold bind, query, step. simpl. rewrite Hca. simpl.
  destruct (temporary_path w1) as [tmp w2] eqn:Et. simpl.
  unfold finally, bind, call, poke. simpl.
  destruct (combine_key_and_cert tmp key cert w2) as [[[] | e] w3] eqn:Ec; simpl.
  - match goal with
    | |- context [run_get_stderr ?c0 ?e0 ?s0] =>
        destruct (run_get_stderr c0 e0 s0) as [r [w4 t4]]
    end. simpl. exists w4. reflexivity.
  - exists w3. reflexivity.
Qed.

(** X6.  With PKI and a combining step that succeeds, the one process that
    [run_pip] starts gets the client certificate and the CA bundle on its
    command line, after [install] and [-vvv] and before the packages. *)
Theorem run_pip_pki_command_line (packages : list string) (verbose : bool)
    (pip_config_path : option string) (st : state W)
    (key cert ca : string) (w1 w3 : W) :
  key_cert_paths (world st) = (Ok (key, cert), w1) ->
  ca_path w1 = Ok ca ->
  combine_key_and_cert (fst (temporary_path w1)) key cert (snd (temporary_path w1))
  = (Ok tt, w3) ->
  spawned (drop (length (trace st))
             (trace (snd (run_pip packages true verbose pip_config_path st))))
  = [ [executable; "-m"; "pip"; "install"] ++ (if verbose then ["-vvv"] else [])
        ++ ["--client-cert=" +:+ fst (temporary_path w1); "--cert=" +:+ ca]
        ++ packages ].
Proof.
  intros Hk Hca Hc. unfold run_pip, bind, ask, call. simpl. rewrite Hk. simpl.
  unfold finally at 1. unfold bind, query, step. simpl. rewrite Hca. simpl.
  destruct (temporary_path w1) as [tmp w2] eqn:Et. simpl in *.
  unfold finally, bind, call, poke. simpl. rewrite Hc. simpl.
  unfold run_get_stderr, check_output, bind, emit, step. simpl.
  assert (Hdrop : forall (t : list event) e, spawned (drop (length t) (t ++ [e])) = spawned [e]).
  { intros t e. rewrite drop_app_length. reflexivity. }
  match goal with
  | |- context [spawn ?c0 ?e0 ?w0] => destruct (spawn c0 e0 w0) as [[rc out err | e] w']
  end; simpl.
  - destruct (rc =? 0)%Z; simpl.
    + rewrite Hdrop. simpl. rewrite <- !app_assoc. reflexivity.
    + unfold bind, str_utf8, ret, raise. destruct (decode_utf8 err); simpl;
        rewrite Hdrop; simpl; rewrite <- !app_assoc; reflexivity.
  - unfold raise. destruct e; simpl; try (rewrite Hdrop; simpl; rewrite <- !app_assoc; reflexivity).
    destruct stderr; simpl.
    + unfold bind, str_utf8, ret, raise. destruct (decode_utf8 b); simpl;
        rewrite Hdrop; simpl; rewrite <- !app_assoc; reflexivity.
    + rewrite Hdrop; simpl; rewrite <- !app_assoc; reflexivity.
Qed.

End Subprocesses.

(** ** The installed set *)

Module FreezeFacts.

Lemma list_ascii_of_string_app (a b : string) :
  list_ascii_of_string (a +:+ b) = list_ascii_of_string a ++ list_ascii_of_string b.
Proof.
  induction a as [| c a IH]; [reflexivity |].
  simpl. rewrite <- IH. reflexivity.
Qed.

(** A piece without a newline, followed by a newline, is the next line. *)
Lemma split_nl_line (line rest : list ascii) :
  Forall (fun c => c <> "010"%char) line ->
  forall cur,
    Text.split_nl (line ++ "010"%char :: rest) cur
    = (rev cur ++ line) :: Text.split_nl rest [].
Proof.
  induction 1 as [| c line Hc _ IH]; intros cur; simpl.
  - rewrite app_nil_r. reflexivity.
  - destruct (Ascii.eqb c "010") eqn:E.
    + apply Ascii.eqb_eq in E. contradiction.
    + rewrite IH. simpl. rewrite <- app_assoc. reflexivity.
Qed.

(** Text without an equals sign is one piece for [split('==')]. *)
Lemma split_eqeq_plain (s : list ascii) :
  Forall (fun c => c <> "="%char) s ->
  forall cur, Text.split_eqeq s cur = [rev cur ++ s].
Proof.
  induction 1 as [| c s Hc Hs IH]; intros cur.
  - simpl. rewrite app_nil_r. reflexivity.
  - assert (E : Ascii.eqb c "=" = false).
    { destruct (Ascii.eqb c "=") eqn:E; [| reflexivity].
      apply Ascii.eqb_eq in E. contradiction. }
    destruct s as [| c' s'].
    + simpl. reflexivity.
    + change (Text.split_eqeq (c :: c' :: s') cur)
        with (if Ascii.eqb c "=" && Ascii.eqb c' "="
              then rev cur :: Text.split_eqeq s' []
              else Text.split_eqeq (c' :: s') (c :: cur)).
      rewrite E. simpl andb. cbv iota. rewrite IH. simpl.
      rewrite <- app_assoc. reflexivity.
Qed.

(** Text without an equals sign, then [==]: the text is the first piece. *)
Lemma split_eqeq_first (name rest : list ascii) :
  Forall (fun c => c <> "="%char) name ->
  forall cur,
    Text.split_eqeq (name ++ "="%char :: "="%char :: rest) cur
    = (rev cur ++ name) :: Text.split_eqeq rest [].
Proof.
  induction 1 as [| c name Hc Hs IH]; intros cur.
  - simpl. rewrite app_nil_r. reflexivity.
  - assert (E : Ascii.eqb c "=" = false).
    { destruct (Ascii.eqb c "=") eqn:E; [| reflexivity].
      apply Ascii.eqb_eq in E. contradiction. }
    assert (Hcons : exists c' s', name ++ "="%char :: "="%char :: rest = c' :: s').
    { destruct name; simpl; eauto. }
    destruct Hcons as (c' & s' & Hcons).
    change ((c :: name) ++ "="%char :: "="%char :: rest)
      with (c :: (name ++ "="%char :: "="%char :: rest)).
    specialize (IH (c :: cur)). rewrite Hcons in *.
    change (Text.split_eqeq (c :: c' :: s') cur)
      with (if Ascii.eqb c "=" && Ascii.eqb c' "="
            then rev cur :: Text.split_eqeq s' []
            else Text.split_eqeq (c' :: s') (c :: cur)).
    rewrite E. simpl andb. cbv iota. rewrite IH. simpl.
    rewrite <- app_assoc. reflexivity.
Qed.

Lemma length_list_ascii_of_string (s : string) :
  length (list_ascii_of_string s) = String.length s.
Proof. induction s as [| c s IH]; simpl; congruence. Qed.

End FreezeFacts.

(** X7.  A [name==version] line whose name and version hold no equals sign
    gives the name, trimmed.  A line with a second [==] cannot be unpacked
    into two parts: [get_freeze_package_name] raises [ValueError]. *)
Theorem get_freeze_package_name_parts (name version : string) :
  no_char "=" name -> no_char "=" version ->
  get_freeze_package_name (name +:+ "==" +:+ version) = Ok (Text.strip name)
  /\ forall more, no_char "=" more ->
       get_freeze_package_name (name +:+ "==" +:+ version +:+ "==" +:+ more)
       = Raise (ValueError "unpack").
Proof.
  unfold no_char. intros Hn Hv. split; [| intros more Hm];
    unfold get_freeze_package_name, Text.split_double_equals;
    rewrite !FreezeFacts.list_ascii_of_string_app; simpl.
  - rewrite FreezeFacts.split_eqeq_first by exact Hn.
    rewrite FreezeFacts.split_eqeq_plain by exact Hv. simpl.
    rewrite string_of_list_ascii_of_string. reflexivity.
  - rewrite FreezeFacts.split_eqeq_first by exact Hn.
    rewrite FreezeFacts.split_eqeq_first by exact Hv.
    rewrite FreezeFacts.split_eqeq_plain by exact Hm. reflexivity.
Qed.

Lemma get_freeze_package_name_parts_witness :
  get_freeze_package_name "numpy==1.26.4" = Ok "numpy"
  /\ forall more, no_char "=" more ->
       get_freeze_package_name ("numpy" +:+ "==" +:+ "1.26.4" +:+ "==" +:+ more)
       = Raise (ValueError "unpack").
Proof.
  apply (get_freeze_package_name_parts "numpy" "1.26.4");
    unfold no_char; simpl; repeat constructor; discriminate.
Defined.

Module ListingFacts.
Import FreezeFacts.

Lemma no_char_app (c : ascii) (a b : string) :
  no_char c a -> no_char c b -> no_char c (a +:+ b).
Proof.
  unfold no_char. intros Ha Hb. rewrite list_ascii_of_string_app.
  apply Forall_app. split; assumption.
Qed.

Lemma plain_line_no_newline (l : freeze_line) :
  plain_line l -> no_char "010" (line_text l).
Proof.
  destruct l as [name version | text]; simpl.
  - intros (_ & Hn & _ & Hv). repeat apply no_char_app; try assumption.
    unfold no_char. simpl. repeat constructor; discriminate.
  - intros [_ Ht]. exact Ht.
Qed.

(** [text.split('\n')] gives back the lines of a listing, and a last, empty
    piece after the final newline. *)
Lemma lines_freeze_text (ls : list freeze_line) :
  Forall plain_line ls ->
  Text.lines (freeze_text ls) = map line_text ls ++ [""].
Proof.
  unfold Text.lines. induction 1 as [| l ls Hl _ IH]; [reflexivity |].
  simpl freeze_text. rewrite !list_ascii_of_string_app. simpl.
  rewrite split_nl_line by (apply plain_line_no_newline; exact Hl).
  simpl. rewrite string_of_list_ascii_of_string. f_equal. exact IH.
Qed.

Lemma split_pinned (name version : string) :
  no_char "=" name -> no_char "=" version ->
  Text.split_double_equals (name +:+ "==" +:+ version) = [name; version].
Proof.
  unfold no_char, Text.split_double_equals. intros Hn Hv.
  rewrite !list_ascii_of_string_app. simpl.
  rewrite split_eqeq_first by exact Hn. rewrite split_eqeq_plain by exact Hv.
  simpl. rewrite !string_of_list_ascii_of_string. reflexivity.
Qed.

Lemma split_unpinned (text : string) :
  no_char "=" text -> Text.split_double_equals text = [text].
Proof.
  unfold no_char, Text.split_double_equals. intros Ht.
  rewrite split_eqeq_plain by exact Ht. simpl.
  rewrite string_of_list_ascii_of_string. reflexivity.
Qed.

(** The filter and the unpacking of [process_pip_freeze_output], on the
    lines of a listing. *)
Lemma names_of_lines (ls : list freeze_line) (tail : list string) :
  Forall plain_line ls ->
  map_result get_freeze_package_name
    (filter (fun p => ((0 <? String.length p)%nat
                       && (1 <? length (Text.split_double_equals p))%nat) = true)
       (map line_text ls ++ tail))
  = rbind (map_result get_freeze_package_name
             (filter (fun p => ((0 <? String.length p)%nat
                                && (1 <? length (Text.split_double_equals p))%nat) = true)
                tail))
      (fun rest => Ok (pinned_names ls ++ rest)).
Proof.
  set (r := map_result get_freeze_package_name (filter _ tail)).
  induction 1 as [| l ls Hl _ IH]; simpl.
  - change (r = rbind r (fun rest => Ok rest)). destruct r; reflexivity.
  - destruct l as [name version | text]; simpl in Hl.
    + destruct Hl as (Hn & _ & Hv & _).
      change (line_text (Pinned name version)) with (name +:+ "==" +:+ version).
      rewrite filter_cons_True.
      2:{ rewrite split_pinned by assumption. simpl.
          rewrite andb_true_r. apply Nat.ltb_lt.
          rewrite <- length_list_ascii_of_string, !list_ascii_of_string_app.
          rewrite !length_app. simpl. lia. }
      simpl. unfold get_freeze_package_name at 1.
      rewrite split_pinned by assumption. simpl.
      rewrite IH. destruct r; reflexivity.
    + destruct Hl as [Ht _].
      change (line_text (Unpinned text)) with text.
      rewrite filter_cons_False.
      2:{ rewrite split_unpinned by assumption. simpl.
          rewrite andb_false_r. discriminate. }
      exact IH.
Qed.

End ListingFacts.

Section Installed.

Context {W : Type} `{World W}.

Lemma process_listing (pkgs : bytes) (ls : list freeze_line) (st : state W) :
  decode_utf8 pkgs = Some (freeze_text ls) ->
  Forall plain_line ls ->
  process_pip_freeze_output pkgs st = (Ok (pinned_names ls), st).
Proof.
  intros Hd Hls. unfold process_pip_freeze_output, bind, str_utf8.
  rewrite Hd. unfold ret, lift.
  rewrite (ListingFacts.lines_freeze_text ls Hls).
  rewrite (ListingFacts.names_of_lines ls [""] Hls). simpl.
  rewrite app_nil_r. reflexivity.
Qed.

(** X8.  Given the bytes of a [pip freeze] listing, each line being
    [name==version] or a line without an equals sign,
    [process_pip_freeze_output] returns the names of the [name==version]
    lines, trimmed, in the order of the listing; the other lines and the
    empty piece after the last newline are skipped. *)
Theorem process_pip_freeze_output_names (pkgs : bytes) (ls : list freeze_line)
    (st : state W) :
  decode_utf8 pkgs = Some (freeze_text ls) ->
  Forall plain_line ls ->
  process_pip_freeze_output pkgs st = (Ok (pinned_names ls), st).
Proof. apply process_listing. Qed.

(** X9.  When [pip freeze] exits with 0 and prints such a listing,
    [currently_installed] is the union of the registry's project names and
    the listing's pinned names, all in lower case; one process was started,
    the interpreter with [-m pip freeze --all], in the current
    environment. *)
Theorem currently_installed_union (st : state W) (out err : bytes)
    (ls : list freeze_line) (w' : W) :
  spawn [executable; "-m"; "pip"; "freeze"; "--all"] (environ (world st)) (world st)
  = (Exited 0 out err, w') ->
  decode_utf8 out = Some (freeze_text ls) ->
  Forall plain_line ls ->
  currently_installed st
  = (Ok (lower_all (list_to_set (working_set (world st)) ∪ list_to_set (pinned_names ls))),
     mkState w'
       (trace st ++
          [EvSpawn [executable; "-m"; "pip"; "freeze"; "--all"] (environ (world st))])).
Proof.
  intros Hs Hd Hls.
  unfold currently_installed, pip_freeze_packages, check_output, pip_run_args,
    bind, ask, emit, step. simpl.
  rewrite Hs. simpl.
  rewrite (process_listing out ls _ Hd Hls). reflexivity.
Qed.

(** X10.  A [pip freeze] that exits with another status is not handled:
    [currently_installed] raises [CalledProcessError] with that status and
    no captured standard error. *)
Theorem currently_installed_freeze_failure (st : state W) (rc : Z)
    (out err : bytes) (w' : W) :
  spawn [executable; "-m"; "pip"; "freeze"; "--all"] (environ (world st)) (world st)
  = (Exited rc out err, w') ->
  rc <> 0%Z ->
  currently_installed st
  = (Raise (CalledProcessError rc None),
     mkState w'
       (trace st ++
          [EvSpawn [executable; "-m"; "pip"; "freeze"; "--all"] (environ (world st))])).
Proof.
  intros Hs Hrc.
  unfold currently_installed, pip_freeze_packages, check_output, pip_run_args,
    bind, ask, emit, step. simpl.
  rewrite Hs. simpl.
  apply Z.eqb_neq in Hrc. rewrite Hrc. reflexivity.
Qed.

End Installed.

Lemma lower_char_idempotent (c : ascii) :
  Text.lower_char (Text.lower_char c) = Text.lower_char c.
Proof. destruct c as [[] [] [] [] [] [] [] []]; reflexivity. Qed.

Lemma lower_idempotent (s : string) : Text.lower (Text.lower s) = Text.lower s.
Proof.
  induction s as [| c s IH]; simpl; [reflexivity |].
  rewrite lower_char_idempotent, IH. reflexivity.
Qed.

Section Reports.

Context {W : Type} `{World W}.

(** X11.  Whenever [currently_installed] returns, every name in the set is
    in lower case, the lower-case form of every project of the registry is
    in it, and the run started exactly one process. *)
Theorem currently_installed_lowercase (st st' : state W) (installed : gset string) :
  currently_installed st = (Ok installed, st') ->
  (forall p, p ∈ installed -> Text.lower p = p)
  /\ (forall name, name ∈ working_set (world st) -> Text.lower name ∈ installed)
  /\ trace st'
     = trace st ++
         [EvSpawn [executable; "-m"; "pip"; "freeze"; "--all"] (environ (world st))].
Proof.
  intros Hrun. unfold currently_installed in Hrun.
  apply bind_ok_inv in Hrun. destruct Hrun as (pr & st1 & Hpr & Hrun).
  injection Hpr as <- <-.
  apply bind_ok_inv in Hrun. destruct Hrun as (pf & st2 & Hpf & Hrun).
  injection Hrun as <- <-.
  split; [| split].
  - intros p Hp. unfold lower_all in Hp. apply elem_of_map in Hp.
    destruct Hp as (q & -> & _). apply lower_idempotent.
  - intros name Hn. unfold lower_all. apply elem_of_map.
    exists name. split; [reflexivity |].
    apply elem_of_union_l, elem_of_list_to_set. exact Hn.
  - unfold pip_freeze_packages in Hpf.
    apply bind_ok_inv in Hpf. destruct Hpf as (env & st3 & Henv & Hpf).
    injection Henv as <- <-.
    apply bind_ok_inv in Hpf. destruct Hpf as (out & st4 & Hout & Hpf).
    unfold check_output, bind, emit, step in Hout. simpl in Hout.
    destruct (spawn _ _ _) as [[rc o e | e] w'] in Hout; simpl in Hout.
    + destruct (rc =? 0)%Z; [| discriminate].
      injection Hout as <- <-.
      unfold process_pip_freeze_output in Hpf.
      apply bind_ok_inv in Hpf. destruct Hpf as (text & st5 & Ht & Hpf).
      unfold str_utf8 in Ht. destruct (decode_utf8 o); [| discriminate].
      injection Ht as <- <-.
      apply lift_ok_inv in Hpf. destruct Hpf as [_ ->]. reflexivity.
    + discriminate.
Qed.

(** X12.  [log_before_after] always writes exactly one entry and changes
    nothing else: the warning that nothing new was installed exactly when
    every package installed afterwards was installed before, and otherwise
    the information naming the new packages. *)
Theorem log_before_after_one_entry (before after : gset string) (st : state W) :
  exists entry,
    log_before_after before after st
    = (Ok tt, mkState (world st) (trace st ++ [entry]))
    /\ (after ⊆ before <-> entry = EvLog WARNING "No new packages installed" [])
    /\ (~ after ⊆ before <->
        entry = EvLog INFO
                  ("New packages installed: "
                   +:+ Text.join ", " (Text.sorted (elements (after ∖ before))))
                  []).
Proof.
  unfold log_before_after, logger, emit.
  destruct (size (after ∖ before) =? 0)%nat eqn:E.
  - apply Nat.eqb_eq, size_empty_iff in E.
    assert (Hsub : after ⊆ before) by set_solver.
    eexists. split; [reflexivity |]. split.
    + split; [reflexivity | intros _; exact Hsub].
    + split; [intros Hn; contradiction | discriminate].
  - apply Nat.eqb_neq in E.
    assert (Hsub : ~ after ⊆ before).
    { intros Hsub. apply E. apply size_empty_iff, elem_of_equiv_empty.
      intros x Hx. apply elem_of_difference in Hx. destruct Hx as [Ha Hb].
      apply Hb, Hsub, Ha. }
    eexists. split; [reflexivity |]. split.
    + split; [intros Hs; contradiction | discriminate].
    + split; [reflexivity | intros _; exact Hsub].
Qed.

(** X13.  [log_currently_installed] is silent when none of the requested
    packages is installed, and otherwise writes one information entry; it
    never touches the world. *)
Theorem log_currently_installed_entries (before requested : gset string)
    (st : state W) :
  exists entries,
    log_currently_installed before requested st
    = (Ok tt, mkState (world st) (trace st ++ entries))
    /\ (before ∩ requested = ∅ <-> entries = [])
    /\ (before ∩ requested <> ∅ <->
        entries = [EvLog INFO "Packages currently installed: %s"
                     [Text.join ", " (Text.sorted (elements (before ∩ requested)))]]).
Proof.
  unfold log_currently_installed, logger, emit, ret.
  destruct (0 <? size (before ∩ requested))%nat eqn:E.
  - apply Nat.ltb_lt in E.
    assert (Hne : before ∩ requested <> ∅).
    { intros He. rewrite He, size_empty in E. lia. }
    eexists. split; [reflexivity |]. split.
    + split; [intros He; contradiction | discriminate].
    + split; [reflexivity | intros _; exact Hne].
  - apply Nat.ltb_ge in E.
    assert (He : before ∩ requested = ∅).
    { apply leibniz_equiv, size_empty_iff. lia. }
    exists []. split.
    + destruct st as [w t]. simpl. rewrite app_nil_r. reflexivity.
    + split.
      * split; [reflexivity | intros _; exact He].
      * split; [intros Hn; contradiction | discriminate].
Qed.

(** [refresh_available_packages] adds every entry of the search path
    to the registry, in the order of the path, and never raises. *)
Theorem refresh_available_packages_rescans (st : state W) :
  refresh_available_packages st
  = (Ok tt,
     mkState (fold_left (fun w entry => add_entry entry w) (sys_path (world st)) (world st))
       (trace st ++ map EvAddEntry (sys_path (world st)))).
Proof.
  unfold refresh_available_packages, bind, ask. simpl.
  generalize (sys_path (world st)). intros entries.
  destruct st as [w t]. simpl. revert w t.
  induction entries as [| entry entries IH]; intros w t; simpl.
  - unfold ret. rewrite app_nil_r. reflexivity.
  - unfold bind, poke, emit. simpl. rewrite IH.
    rewrite <- app_assoc. reflexivity.
Qed.

End Reports.

(** ** Override documents with lower-case keys *)

Module DictFacts.

Lemma dict_get_fresh {V} (k : string) (d : dict V) :
  k ∉ dict_keys d -> dict_get k d = None.
Proof.
  induction d as [| [k' v'] d IH]; simpl; [reflexivity |].
  intros Hk. apply not_elem_of_cons in Hk. destruct Hk as [Hne Hk].
  destruct (String.eqb k k') eqn:E.
  - apply String.eqb_eq in E. contradiction.
  - apply IH. exact Hk.
Qed.

Lemma dict_get_middle {V} (k : string) (v : V) (pre suf : dict V) :
  k ∉ dict_keys pre -> dict_get k (pre ++ (k, v) :: suf) = Some v.
Proof.
  induction pre as [| [k' v'] pre IH]; simpl.
  - intros _. rewrite String.eqb_refl. reflexivity.
  - intros Hk. apply not_elem_of_cons in Hk. destruct Hk as [Hne Hk].
    destruct (String.eqb k k') eqn:E.
    + apply String.eqb_eq in E. contradiction.
    + apply IH. exact Hk.
Qed.

Lemma dict_set_fresh {V} (k : string) (v : V) (d : dict V) :
  k ∉ dict_keys d -> dict_set k v d = d ++ [(k, v)].
Proof.
  induction d as [| [k' v'] d IH]; simpl; [reflexivity |].
  intros Hk. apply not_elem_of_cons in Hk. destruct Hk as [Hne Hk].
  destruct (String.eqb k k') eqn:E.
  - apply String.eqb_eq in E. contradiction.
  - rewrite IH by exact Hk. reflexivity.
Qed.

Lemma keys_app {V} (a b : dict V) : dict_keys (a ++ b) = dict_keys a ++ dict_keys b.
Proof. unfold dict_keys. apply map_app. Qed.

End DictFacts.

Section LowercaseDocuments.

Context {W : Type} `{World W}.

(** The inner loop, started in the middle of a table whose keys are in lower
    case: it copies the rest of the table, and logs nothing. *)
Lemma lowercase_packages_copies (suf : dict commands) :
  forall (pre : dict commands) (st : state W),
    NoDup (dict_keys (pre ++ suf)) ->
    Forall (fun k => Text.lower k = k) (dict_keys suf) ->
    lowercase_packages (pre ++ suf) (dict_keys suf) pre st = (Ok (pre ++ suf), st).
Proof.
  induction suf as [| [k v] suf IH]; intros pre st Hnd Hlow; simpl.
  - rewrite app_nil_r. reflexivity.
  - apply Forall_cons in Hlow. destruct Hlow as [Hk Hlow]. simpl in Hk.
    rewrite Hk.
    assert (Hfresh : k ∉ dict_keys pre).
    { rewrite DictFacts.keys_app in Hnd. apply NoDup_app in Hnd.
      destruct Hnd as (_ & Hdis & _). intros Hin. apply (Hdis k Hin). left. }
    rewrite DictFacts.dict_get_middle by exact Hfresh.
    unfold dict_mem. rewrite DictFacts.dict_get_fresh by exact Hfresh.
    unfold bind, ret. rewrite DictFacts.dict_set_fresh by exact Hfresh.
    replace (pre ++ (k, v) :: suf) with ((pre ++ [(k, v)]) ++ suf)
      by (rewrite <- app_assoc; reflexivity).
    apply IH; [| exact Hlow].
    rewrite <- app_assoc. exact Hnd.
Qed.

Lemma lowercase_versions_copies (suf : dep_json_t) :
  forall (pre : dep_json_t) (st : state W),
    NoDup (dict_keys (pre ++ suf)) ->
    Forall (fun entry => lowercase_table (snd entry)) suf ->
    lowercase_versions (pre ++ suf) (dict_keys suf) pre st = (Ok (pre ++ suf), st).
Proof.
  induction suf as [| [version table] suf IH]; intros pre st Hnd Hlow; simpl.
  - rewrite app_nil_r. reflexivity.
  - apply Forall_cons in Hlow. destruct Hlow as [[Htn Htl] Hlow]. simpl in Htn, Htl.
    assert (Hfresh : version ∉ dict_keys pre).
    { rewrite DictFacts.keys_app in Hnd. apply NoDup_app in Hnd.
      destruct Hnd as (_ & Hdis & _). intros Hin. apply (Hdis version Hin). left. }
    rewrite DictFacts.dict_get_middle by exact Hfresh.
    unfold bind.
    pose proof (lowercase_packages_copies table [] st Htn Htl) as Hc.
    change ([] ++ table) with table in Hc. rewrite Hc. simpl.
    rewrite DictFacts.dict_set_fresh by exact Hfresh.
    replace (pre ++ (version, table) :: suf) with ((pre ++ [(version, table)]) ++ suf)
      by (rewrite <- app_assoc; reflexivity).
    apply IH; [| exact Hlow].
    rewrite <- app_assoc. exact Hnd.
Qed.

(** X14.  On a document whose package keys are all in lower case already,
    [case_insensitive_dependencies_json] returns the document as it is, and
    logs no warning. *)
Theorem case_insensitive_dependencies_json_lowercase (dep_json : dep_json_t)
    (st : state W) :
  lowercase_document dep_json ->
  case_insensitive_dependencies_json dep_json st = (Ok dep_json, st).
Proof.
  intros [Hnd Hlow]. unfold case_insensitive_dependencies_json.
  apply (lowercase_versions_copies dep_json [] st Hnd Hlow).
Qed.

(** X15.  When the link serves UTF-8 text that decodes to a document with
    lower-case package keys, [find_overrides] makes that one request, logs
    nothing, and gives each requested package the entry of the document
    under the micro tag, else the one under the minor tag, else the one
    under the major tag. *)
Theorem find_overrides_from_document (packages : gset string) (config : Config)
    (st : state W) (b : bytes) (text : string) (dep_json : dep_json_t) (w' : W) :
  let link := dependencies_link config in
  let pki := dependencies_link_requires_pki config in
  packages <> ∅ ->
  urlopen link pki (world st) = (Body b, w') ->
  decode_utf8 b = Some text ->
  json_loads text = Decoded dep_json ->
  lowercase_document dep_json ->
  exists overrides,
    find_overrides packages config st
    = (Ok overrides, mkState w' (trace st ++ [EvUrlopen link pki]))
    /\ forall pkg, pkg ∈ packages ->
         dict_get pkg overrides =
           match override_entry dep_json py_name_micro pkg with
           | Some cmds => Some cmds
           | None =>
               match override_entry dep_json py_name_minor pkg with
               | Some cmds => Some cmds
               | None => override_entry dep_json py_name_major pkg
               end
           end.
Proof.
  intros link pki Hne Hu Hd Hj Hdoc. unfold find_overrides.
  assert (Hsz : (size packages =? 0)%nat = false).
  { apply Nat.eqb_neq. intros Hz. apply Hne.
    apply leibniz_equiv, size_empty_iff. exact Hz. }
  rewrite Hsz.
  unfold bind at 1. unfold read_dependencies_json, open_and_read.
  unfold bind, emit, step, str_utf8. simpl. fold link pki.
  rewrite Hu. simpl. rewrite Hd. unfold ret at 1. rewrite Hj.
  unfold case_insensitive_dependencies_json.
  pose proof (lowercase_versions_copies dep_json [] (mkState w' (trace st ++ [EvUrlopen link pki]))
                (proj1 Hdoc) (proj2 Hdoc)) as Hcopy.
  change ([] ++ dep_json) with dep_json in Hcopy. rewrite Hcopy.
  unfold ret. eexists. split; [reflexivity |].
  intros pkg Hin.
  assert (Hl : In pkg (elements packages)).
  { apply list_elem_of_In, elem_of_elements. exact Hin. }
  rewrite !apply_tag_requested by exact Hl. simpl.
  destruct (override_entry dep_json py_name_micro pkg); [reflexivity |].
  destruct (override_entry dep_json py_name_minor pkg); [reflexivity |].
  destruct (override_entry dep_json py_name_major pkg); reflexivity.
Qed.

End LowercaseDocuments.

(** ** Bare package names pass the safelist *)

Module PlainNames.
Import Re.

(** A greedy repetition of a character set reads a whole run of characters
    of the set, when what follows the run is accepted by the continuation. *)
Lemma bt_star_class (ranges : list (ascii * ascii)) (rest : list ascii)
    (k : list ascii -> option (list ascii)) (res : list ascii) :
  match rest with [] => True | c :: _ => in_class ranges c = false end ->
  k rest = Some res ->
  forall run,
    Forall (fun c => in_class ranges c = true) run ->
    bt (Star (Cls ranges)) (run ++ rest) k = Some res.
Proof.
  intros Hrest Hk. induction 1 as [| c run Hc _ IH].
  - destruct rest as [| c rest']; simpl.
    + exact Hk.
    + rewrite Hrest. exact Hk.
  - change (bt (Star (Cls ranges)) ((c :: run) ++ rest) k)
      with (match (if in_class ranges c
                   then if (length (run ++ rest) <? length (c :: run ++ rest))%nat
                        then bt (Star (Cls ranges)) (run ++ rest) k
                        else None
                   else None) with
            | Some r => Some r
            | None => k (c :: run ++ rest)
            end).
    rewrite Hc.
    replace (length (run ++ rest) <? length (c :: run ++ rest))%nat with true
      by (symmetry; apply Nat.ltb_lt; simpl; lia).
    rewrite IH. reflexivity.
Qed.

Lemma match_plain_name (c : ascii) (run rest : list ascii) :
  is_letter c = true ->
  run <> [] ->
  Forall (fun c' => is_name_char c' = true) run ->
  at_boundary rest ->
  match_len package_name_pattern (c :: run ++ rest) = Some (S (length run)).
Proof.
  intros Hc Hne Hrun Hb. unfold match_len.
  assert (Hbt : bt package_name_pattern (c :: run ++ rest) Some = Some rest).
  { destruct run as [| c2 run2]; [contradiction |].
    apply Forall_cons in Hrun. destruct Hrun as [Hc2 Hrun2].
    change (in_class [("A", "Z"); ("a", "z")]%char c = true) in Hc.
    change (in_class [("A", "Z"); ("a", "z"); ("0", "9"); ("_", "_"); ("-", "-")]%char
              c2 = true) in Hc2.
    assert (Hrun' : Forall
              (fun c' => in_class
                 [("A", "Z"); ("a", "z"); ("0", "9"); ("_", "_"); ("-", "-")]%char c' = true)
              run2) by exact Hrun2.
    change (bt package_name_pattern (c :: (c2 :: run2) ++ rest) Some)
      with (if in_class [("A", "Z"); ("a", "z")]%char c
            then if in_class [("A", "Z"); ("a", "z"); ("0", "9"); ("_", "_"); ("-", "-")]%char c2
                 then bt (Star name_char) (run2 ++ rest)
                        (fun s' => bt (Opt version_spec) s' Some)
                 else None
            else None).
    rewrite Hc, Hc2. unfold name_char. apply bt_star_class.
    - destruct Hb as [-> | [rest' ->]]; [exact I | reflexivity].
    - destruct Hb as [-> | [rest' ->]]; reflexivity.
    - exact Hrun'. }
  rewrite Hbt. f_equal. simpl. rewrite length_app. lia.
Qed.

Lemma scan_skip (r : regex) (a b : list ascii) :
  scan r (length a) (a ++ b) = scan r 0 b.
Proof.
  induction a as [| x a IH]; [reflexivity |].
  destruct b as [| y b]; simpl; exact IH.
Qed.

Lemma scan_plain_name (c : ascii) (run rest : list ascii) :
  is_letter c = true ->
  run <> [] ->
  Forall (fun c' => is_name_char c' = true) run ->
  at_boundary rest ->
  scan package_name_pattern 0 (c :: run ++ rest)
  = (c :: run) :: scan package_name_pattern 0 (drop 1 rest).
Proof.
  intros Hc Hne Hrun Hb.
  change (scan package_name_pattern 0 (c :: run ++ rest))
    with (match match_len package_name_pattern (c :: run ++ rest) with
          | Some n => take n (c :: run ++ rest)
                      :: scan package_name_pattern (n - 1) (run ++ rest)
          | None => scan package_name_pattern 0 (run ++ rest)
          end).
  rewrite (match_plain_name c run rest Hc Hne Hrun Hb).
  replace (S (length run) - 1)%nat with (length run) by lia.
  rewrite scan_skip. simpl take. rewrite take_app_length.
  f_equal. destruct Hb as [-> | [rest' ->]]; reflexivity.
Qed.

Lemma plain_name_chars (name : string) :
  plain_name name = true ->
  exists c run,
    list_ascii_of_string name = c :: run
    /\ is_letter c = true /\ run <> []
    /\ Forall (fun c' => is_name_char c' = true) run.
Proof.
  unfold plain_name. destruct (list_ascii_of_string name) as [| c [| c2 run]];
    try discriminate.
  intros Hp. apply andb_true_iff in Hp. destruct Hp as [Hc Hrun].
  exists c, (c2 :: run). repeat split; try assumption; [discriminate |].
  apply Forall_forall. intros x Hx.
  apply (proj1 (forallb_forall _ _) Hrun). apply list_elem_of_In. exact Hx.
Qed.

Lemma scan_joined (names : list string) :
  Forall (fun name => plain_name name = true) names ->
  scan package_name_pattern 0 (list_ascii_of_string (Text.join " " names))
  = map list_ascii_of_string names.
Proof.
  induction 1 as [| name names Hname _ IH]; [reflexivity |].
  destruct (plain_name_chars name Hname) as (c & run & Hcs & Hc & Hne & Hrun).
  destruct names as [| name2 names].
  - simpl. rewrite Hcs.
    rewrite <- (app_nil_r run) at 1.
    rewrite scan_plain_name; try assumption; [| left; reflexivity].
    reflexivity.
  - change (Text.join " " (name :: name2 :: names))
      with (name +:+ " " +:+ Text.join " " (name2 :: names)).
    rewrite !FreezeFacts.list_ascii_of_string_app, Hcs.
    change ((c :: run) ++ list_ascii_of_string " " ++ ?x)
      with (c :: run ++ " "%char :: x).
    rewrite scan_plain_name; try assumption; [| right; eexists; reflexivity].
    change (drop 1 (" "%char :: list_ascii_of_string (Text.join " " (name2 :: names))))
      with (list_ascii_of_string (Text.join " " (name2 :: names))).
    rewrite IH. simpl. rewrite Hcs. reflexivity.
Qed.

Lemma name_char_no_space (c : ascii) :
  is_name_char c = true -> Text.is_space c = false.
Proof.
  intros Hc. apply pattern_alphabet_no_space.
  unfold is_name_char in Hc. simpl in *. rewrite Hc.
  rewrite !orb_true_r. reflexivity.
Qed.

Lemma letter_no_space (c : ascii) :
  is_letter c = true -> Text.is_space c = false.
Proof.
  intros Hc. apply pattern_alphabet_no_space.
  unfold is_letter in Hc. simpl in *. rewrite Hc. reflexivity.
Qed.

End PlainNames.

(** X16.  Bare package names (a letter, then one or more letters, digits,
    underscores or hyphens), given as a sequence, all get through, each as
    it is: the safelist finds exactly these names, in order, and
    [get_pkg_names] returns the set of them. *)
Theorem get_pkg_names_plain_names (names : list string) :
  Forall (fun name => plain_name name = true) names ->
  valid_pkg_names (Text.join " " names) = names
  /\ get_pkg_names (StrSeq names) = list_to_set names.
Proof.
  intros Hnames.
  assert (Hv : valid_pkg_names (Text.join " " names) = names).
  { unfold valid_pkg_names, findall. rewrite PlainNames.scan_joined by exact Hnames.
    rewrite map_map. rewrite <- (map_id names) at 2.
    apply map_ext. intros a. apply string_of_list_ascii_of_string. }
  split; [exact Hv |].
  unfold get_pkg_names. simpl joined. rewrite Hv.
  f_equal. clear Hv. induction Hnames as [| name names Hname _ IH]; [reflexivity |].
  destruct (PlainNames.plain_name_chars name Hname) as (c & run & Hcs & Hc & Hne & Hrun).
  assert (Hstrip : Text.strip name = name).
  { rewrite <- (string_of_list_ascii_of_string name).
    apply TextFacts.strip_no_space. rewrite Hcs. constructor.
    - apply PlainNames.letter_no_space. exact Hc.
    - eapply Forall_impl; [exact Hrun |]. apply PlainNames.name_char_no_space. }
  simpl map. rewrite Hstrip. rewrite filter_cons_True.
  - rewrite IH. reflexivity.
  - apply Nat.ltb_lt. rewrite <- FreezeFacts.length_list_ascii_of_string, Hcs.
    simpl. lia.
Qed.

Lemma get_pkg_names_plain_names_witness :
  valid_pkg_names (Text.join " " ["numpy"; "scikit-learn"; "h5py"])
  = ["numpy"; "scikit-learn"; "h5py"]
  /\ get_pkg_names (StrSeq ["numpy"; "scikit-learn"; "h5py"])
     = list_to_set ["numpy"; "scikit-learn"; "h5py"].
Proof.
  apply (get_pkg_names_plain_names ["numpy"; "scikit-learn"; "h5py"]).
  repeat constructor.
Defined.

(** ** What a run can add to the trace *)

Section Traces.

Context {W : Type} `{World W}.

Lemma appends_weaken {A} (P Q : event -> Prop) (m : M W A) :
  (forall e, P e -> Q e) -> appends P m -> appends Q m.
Proof.
  intros HPQ Hm st r st' Hrun. destruct (Hm st r st' Hrun) as (t & Ht & HP).
  exists t. split; [exact Ht |]. eapply Forall_impl; [exact HP | exact HPQ].
Qed.

Lemma appends_ret {A} (P : event -> Prop) (a : A) : appends P (ret a : M W A).
Proof.
  intros st r st' Hrun. injection Hrun as <- <-.
  exists []. rewrite app_nil_r. split; [reflexivity | constructor].
Qed.

Lemma appends_raise {A} (P : event -> Prop) (e : exn) : appends P (raise e : M W A).
Proof.
  intros st r st' Hrun. injection Hrun as <- <-.
  exists []. rewrite app_nil_r. split; [reflexivity | constructor].
Qed.

Lemma appends_ask {A} (P : event -> Prop) (f : W -> A) : appends P (ask f).
Proof.
  intros st r st' Hrun. injection Hrun as <- <-.
  exists []. rewrite app_nil_r. split; [reflexivity | constructor].
Qed.

Lemma appends_step {A} (P : event -> Prop) (f : W -> A * W) : appends P (step f).
Proof.
  intros st r st' Hrun. unfold step in Hrun.
  destruct (f (world st)) as [a w]. injection Hrun as <- <-.
  exists []. simpl. rewrite app_nil_r. split; [reflexivity | constructor].
Qed.

Lemma appends_emit (P : event -> Prop) (e : event) :
  P e -> appends P (emit e : M W unit).
Proof.
  intros He st r st' Hrun. injection Hrun as <- <-.
  exists [e]. split; [reflexivity | repeat constructor; exact He].
Qed.

Lemma appends_bind {A B} (P : event -> Prop) (m : M W A) (k : A -> M W B) :
  appends P m -> (forall a, appends P (k a)) -> appends P (bind m k).
Proof.
  intros Hm Hk st r st' Hrun. unfold bind in Hrun.
  destruct (m st) as [[a | e] st1] eqn:E.
  - destruct (Hm _ _ _ E) as (t1 & Ht1 & HP1).
    destruct (Hk a _ _ _ Hrun) as (t2 & Ht2 & HP2).
    exists (t1 ++ t2). split.
    + rewrite Ht2, Ht1, app_assoc. reflexivity.
    + apply Forall_app. split; assumption.
  - injection Hrun as <- <-. exact (Hm _ _ _ E).
Qed.

Lemma appends_for_each {A} (P : event -> Prop) (l : list A) (body : A -> M W unit) :
  (forall x, In x l -> appends P (body x)) -> appends P (for_each l body).
Proof.
  induction l as [| x l IH]; intros Hbody; simpl.
  - apply appends_ret.
  - apply appends_bind.
    + apply Hbody. left. reflexivity.
    + intros _. apply IH. intros y Hy. apply Hbody. right. exact Hy.
Qed.

Lemma appends_check_output (cmd : list string) (env : environment) (pipe : bool) :
  appends (fun e => e = EvSpawn cmd env) (check_output cmd env pipe).
Proof.
  unfold check_output. apply appends_bind; [apply appends_emit; reflexivity |].
  intros _. apply appends_bind; [apply appends_step |].
  intros [rc out err | e].
  - destruct (rc =? 0)%Z; [apply appends_ret | apply appends_raise].
  - apply appends_raise.
Qed.

Lemma appends_run_get_stderr (cmd : list string) (env : environment) :
  appends (fun e => e = EvSpawn cmd env) (run_get_stderr cmd env).
Proof.
  intros st r st' Hrun. unfold run_get_stderr in Hrun.
  destruct (check_output cmd env true st) as [[out | e] st1] eqn:E.
  - injection Hrun as <- <-. exact (appends_check_output _ _ _ _ _ _ E).
  - destruct (appends_check_output _ _ _ _ _ _ E) as (t & Ht & HP).
    assert (Hst : st' = st1).
    { destruct e; try (injection Hrun as _ <-; reflexivity).
      destruct stderr as [b |]; [| injection Hrun as _ <-; reflexivity].
      unfold bind, str_utf8, ret, raise in Hrun.
      destruct (decode_utf8 b); injection Hrun as _ <-; reflexivity. }
    subst st'. exists t. split; assumption.
Qed.

Lemma appends_run_and_log_error (cmd : list string) :
  appends (command_entry cmd) (run_and_log_error cmd).
Proof.
  unfold run_and_log_error. apply appends_bind; [apply appends_ask |].
  intros env. apply appends_bind.
  - eapply appends_weaken; [| apply appends_run_get_stderr].
    intros e ->. reflexivity.
  - intros [rc [err |]]; destruct (negb (rc =? 0)%Z);
      try apply appends_ret. apply appends_emit. exact I.
Qed.

Lemma spawned_app (t1 t2 : list event) :
  spawned (t1 ++ t2) = spawned t1 ++ spawned t2.
Proof.
  induction t1 as [| [] t1 IH]; simpl; try exact IH.
  - reflexivity.
  - rewrite IH. reflexivity.
Qed.

Lemma spawned_Forall (P : list string -> Prop) (t : list event) :
  Forall (fun e => match e with EvSpawn cmd _ => P cmd | _ => True end) t ->
  Forall P (spawned t).
Proof.
  induction 1 as [| [] t He _ IH]; simpl; try exact IH.
  - constructor.
  - constructor; assumption.
Qed.

(** X17.  Whatever happens during [run_overrides], it only adds to the
    trace, and every process it starts is a non-empty command of one of the
    overrides: an empty command is never run, and nothing else is. *)
Theorem run_overrides_only_override_commands (overrides : dict commands)
    (st st' : state W) (r : result unit) :
  run_overrides overrides st = (r, st') ->
  exists t,
    trace st' = trace st ++ t
    /\ Forall (fun cmd => cmd <> [] /\ exists name cmds,
                            In (name, cmds) overrides /\ In cmd cmds)
         (spawned t).
Proof.
  intros Hrun.
  assert (Happ : appends
            (fun e => match e with
                      | EvSpawn cmd _ =>
                          cmd <> [] /\ exists name cmds,
                            In (name, cmds) overrides /\ In cmd cmds
                      | _ => True
                      end)
            (run_overrides overrides)).
  { unfold run_overrides. apply appends_for_each. intros [name cmds] Hin.
    apply appends_bind; [apply appends_emit; exact I |].
    intros _. apply appends_for_each. intros command Hc.
    destruct (0 <? length command)%nat eqn:E; [| apply appends_ret].
    apply appends_bind; [apply appends_emit; exact I |].
    intros _. eapply appends_weaken; [| apply appends_run_and_log_error].
    intros [] He; simpl in He; try exact I; try contradiction.
    subst cmd. split.
    - intros ->. discriminate.
    - exists name, cmds. split; assumption. }
  destruct (Happ _ _ _ Hrun) as (t & Ht & HP).
  exists t. split; [exact Ht |]. apply spawned_Forall. exact HP.
Qed.

End Traces.

(** ** Runs in the shell world *)

Module ShellRuns.
Import Shell.

Lemma run_overrides_only_override_commands_witness :
  exists t,
    trace (snd (run_overrides [("numpy", [["true"]; []; ["false"; "x"]; ["nope"]; ["true"]])]
                  Shell.start))
    = trace Shell.start ++ t
    /\ Forall (fun cmd => cmd <> [] /\ exists name cmds,
                  In (name, cmds) [("numpy", [["true"]; []; ["false"; "x"]; ["nope"]; ["true"]])]
                  /\ In cmd cmds)
         (spawned t).
Proof.
  eapply (run_overrides_only_override_commands
            [("numpy", [["true"]; []; ["false"; "x"]; ["nope"]; ["true"]])] Shell.start).
  apply surjective_pairing.
Defined.

End ShellRuns.

(** ** Overrides run to the end *)

Section OverridesRun.

Context {W : Type} `{World W}.

Lemma run_and_log_error_returns (cmd : list string) (st : state W) :
  starts (W:=W) cmd ->
  exists st' t,
    run_and_log_error cmd st = (Ok tt, st')
    /\ trace st' = trace st ++ t /\ spawned t = [cmd].
Proof.
  intros Hstart.
  destruct (Hstart (environ (world st)) (world st))
    as (rc & out & err & w' & Hs & Hd).
  unfold run_and_log_error, bind, ask. simpl.
  unfold run_get_stderr, check_output, bind, emit, step. simpl.
  rewrite Hs. simpl.
  destruct (rc =? 0)%Z eqn:E; simpl.
  - eexists _, [_]. split; [reflexivity |]. split; reflexivity.
  - unfold str_utf8, ret. destruct (decode_utf8 err) as [text |]; [| contradiction].
    simpl. rewrite E. unfold logger, emit. simpl.
    eexists _, [_; _]. split; [reflexivity |]. split.
    + rewrite <- app_assoc. reflexivity.
    + reflexivity.
Qed.

Lemma run_commands_returns (cmds : list (list string)) :
  Forall (starts (W:=W))
    (filter (fun command => (0 <? length command)%nat = true) cmds) ->
  forall st : state W,
    exists st' t,
      for_each cmds (fun command =>
        if (0 <? length command)%nat then
          logger DEBUG (Text.join " " command) [] ;;
          run_and_log_error command
        else ret tt) st = (Ok tt, st')
      /\ trace st' = trace st ++ t
      /\ spawned t = filter (fun command => (0 <? length command)%nat = true) cmds.
Proof.
  induction cmds as [| command cmds IH]; intros Hstart st; cbn [for_each].
  - exists st, []. rewrite app_nil_r. repeat split.
  - unfold bind at 1. destruct (0 <? length command)%nat eqn:E.
    + rewrite filter_cons_True in Hstart by exact E.
      apply Forall_cons in Hstart. destruct Hstart as [Hcmd Hrest].
      unfold bind at 1. unfold logger at 1, emit at 1.
      destruct (run_and_log_error_returns command
                  (mkState (world st) (trace st ++ [EvLog DEBUG (Text.join " " command) []]))
                  Hcmd)
        as (st1 & t1 & Hrun & Ht1 & Hs1).
      rewrite Hrun. destruct (IH Hrest st1) as (st2 & t2 & Hdone & Ht2 & Hs2).
      exists st2, (EvLog DEBUG (Text.join " " command) [] :: t1 ++ t2).
      split; [exact Hdone |]. split.
      * rewrite Ht2, Ht1. simpl. rewrite <- !app_assoc. reflexivity.
      * rewrite filter_cons_True by exact E.
        simpl. rewrite spawned_app, Hs1, Hs2. reflexivity.
    + rewrite filter_cons_False in Hstart by (rewrite E; discriminate).
      unfold ret at 1. destruct (IH Hstart st) as (st2 & t2 & Hdone & Ht2 & Hs2).
      exists st2, t2. split; [exact Hdone |]. split; [exact Ht2 |].
      rewrite filter_cons_False by (rewrite E; discriminate). exact Hs2.
Qed.

(** X18.  When each non-empty command of the overrides can be started and
    writes UTF-8 to standard error, [run_overrides] returns normally,
    whatever the exit statuses, and the processes it has started are exactly
    those commands, package after package and in the order given: a command
    that fails does not stop the ones after it. *)
Theorem run_overrides_runs_every_command (overrides : dict commands) :
  Forall (starts (W:=W)) (override_commands overrides) ->
  forall st : state W,
    exists st' t,
      run_overrides overrides st = (Ok tt, st')
      /\ trace st' = trace st ++ t
      /\ spawned t = override_commands overrides.
Proof.
  unfold run_overrides, override_commands.
  induction overrides as [| [name cmds] overrides IH]; intros Hstart st;
    cbn [for_each map concat snd] in *.
  - exists st, []. rewrite app_nil_r. repeat split.
  - rewrite filter_app in Hstart. apply Forall_app in Hstart.
    destruct Hstart as [Hcmds Hrest].
    unfold bind at 1. unfold bind at 1. unfold logger at 1, emit at 1.
    destruct (run_commands_returns cmds Hcmds
                (mkState (world st) (trace st ++ [EvLog INFO "Executing overrides for %s" [name]])))
      as (st1 & t1 & Hrun & Ht1 & Hs1).
    rewrite Hrun. destruct (IH Hrest st1) as (st2 & t2 & Hdone & Ht2 & Hs2).
    exists st2, (EvLog INFO "Executing overrides for %s" [name] :: t1 ++ t2).
    split; [exact Hdone |]. split.
    + rewrite Ht2, Ht1. simpl. rewrite <- !app_assoc. reflexivity.
    + rewrite filter_app. simpl. rewrite spawned_app, Hs1, Hs2. reflexivity.
Qed.

End OverridesRun.

(** ** What resolving overrides and checking the configuration can do *)

Section Frames.

Context {W : Type} `{World W}.

Lemma appends_lowercase_packages (packages : dict commands) (todo : list string) :
  forall acc,
    appends warning_or_error (lowercase_packages packages todo acc : M W _).
Proof.
  induction todo as [| pkg todo IH]; intros acc; simpl.
  - apply appends_ret.
  - destruct (dict_get (Text.lower pkg) packages) as [cmds |]; [| apply appends_raise].
    apply appends_bind; [| intros _; apply IH].
    destruct (dict_mem (Text.lower pkg) acc); [| apply appends_ret].
    apply appends_emit. left. reflexivity.
Qed.

Lemma appends_lowercase_versions (dep_json : dep_json_t) (todo : list string) :
  forall acc,
    appends warning_or_error (lowercase_versions dep_json todo acc : M W _).
Proof.
  induction todo as [| version todo IH]; intros acc; simpl.
  - apply appends_ret.
  - destruct (dict_get version dep_json) as [packages |]; [| apply appends_raise].
    apply appends_bind; [apply appends_lowercase_packages |].
    intros inner. apply IH.
Qed.

Lemma appends_str_utf8 (P : event -> Prop) (b : bytes) :
  appends P (str_utf8 b : M W _).
Proof.
  unfold str_utf8. destruct (decode_utf8 b); [apply appends_ret | apply appends_raise].
Qed.

(** [read_dependencies_json] makes its request first; all that follows in
    the trace are warnings and errors of the logger. *)
Lemma read_dependencies_json_trace (config : Config) (st st' : state W)
    (r : result dep_json_t) :
  read_dependencies_json config st = (r, st') ->
  exists logs,
    trace st'
    = trace st
        ++ EvUrlopen (dependencies_link config) (dependencies_link_requires_pki config)
        :: logs
    /\ Forall warning_or_error logs.
Proof.
  unfold read_dependencies_json, open_and_read.
  unfold bind at 1. unfold bind at 1. unfold emit at 1.
  set (st1 := mkState (world st) (trace st ++ _)).
  destruct (step _ st1) as [[resp | e] st2] eqn:Es.
  2:{ unfold step in Es. destruct (urlopen _ _ _). discriminate. }
  assert (Ht2 : trace st2 = trace st1).
  { unfold step in Es. destruct (urlopen _ _ _). injection Es as _ <-. reflexivity. }
  intros Hrun.
  assert (Hrest : appends warning_or_error
            (match resp with
             | Body b =>
                 d <- str_utf8 b ;;
                 match json_loads d with
                 | Decoded j => case_insensitive_dependencies_json j
                 | JSONDecodeError msg => logger ERROR msg [] ;; ret []
                 end
             | HTTPError body => msg <- str_utf8 body ;; logger ERROR msg [] ;; ret []
             | UrlFailed e => raise e
             end : M W dep_json_t)).
  { destruct resp as [b | body | e].
    - apply appends_bind; [apply appends_str_utf8 |]. intros d.
      destruct (json_loads d) as [j | msg].
      + apply appends_lowercase_versions.
      + apply appends_bind; [apply appends_emit; right; reflexivity |].
        intros _. apply appends_ret.
    - apply appends_bind; [apply appends_str_utf8 |]. intros msg.
      apply appends_bind; [apply appends_emit; right; reflexivity |].
      intros _. apply appends_ret.
    - apply appends_raise. }
  destruct (Hrest _ _ _ Hrun) as (logs & Hlogs & HP).
  exists logs. split; [| exact HP].
  rewrite Hlogs, Ht2. subst st1. simpl. rewrite <- app_assoc. reflexivity.
Qed.

(** X19.  Whatever its outcome, [find_overrides] starts no process: it
    either adds nothing to the trace (nothing was requested), or it adds the
    one request for the configured link, followed only by warnings and
    errors of the logger. *)
Theorem find_overrides_one_request (packages : gset string) (config : Config)
    (st st' : state W) (r : result (dict commands)) :
  find_overrides packages config st = (r, st') ->
  exists t,
    trace st' = trace st ++ t
    /\ spawned t = []
    /\ (t = [] <-> packages = ∅)
    /\ (packages <> ∅ ->
        exists logs,
          t = EvUrlopen (dependencies_link config) (dependencies_link_requires_pki config)
              :: logs
          /\ Forall warning_or_error logs).
Proof.
  unfold find_overrides. destruct (size packages =? 0)%nat eqn:E.
  - apply Nat.eqb_eq in E.
    assert (He : packages = ∅) by (apply leibniz_equiv, size_empty_iff; exact E).
    intros Hrun. injection Hrun as <- <-.
    exists []. rewrite app_nil_r. repeat split; try reflexivity.
    + intros _. exact He.
    + intros Hne. contradiction.
  - apply Nat.eqb_neq in E.
    assert (Hne : packages <> ∅).
    { intros ->. apply E. apply size_empty. }
    intros Hrun. unfold bind in Hrun.
    destruct (read_dependencies_json config st) as [[dep_json | e] st1] eqn:Er;
      injection Hrun as <- <-;
      destruct (read_dependencies_json_trace _ _ _ _ Er) as (logs & Ht & HP);
      (exists (EvUrlopen (dependencies_link config) (dependencies_link_requires_pki config)
                 :: logs);
       split; [exact Ht |]; split;
       [ simpl; clear Ht; induction HP as [| [] logs He _ IH]; simpl;
         try reflexivity; try contradiction; exact IH
       | split; [split; [discriminate | intros Hp; contradiction] |];
         intros _; exists logs; split; [reflexivity | exact HP] ]).
Qed.

(** X20.  A configuration name without a configuration directory: the path
    resolves to [None], the check calls [exists] on it, and [pip] raises
    [AttributeError] before anything else has happened. *)
Theorem pip_config_name_without_directory requested verbose use_pki use_overrides
    (name : string) (ipydeps_config : Config) (st : state W) :
  config_dir (world st) = Ok None ->
  load_config None (world st) = Ok ipydeps_config ->
  pip requested verbose use_pki use_overrides (Some name) st
  = (Raise (AttributeError "exists"), st).
Proof.
  intros Hdir Hcfg. unfold pip, bind, query, lift. rewrite Hdir, Hcfg. reflexivity.
Qed.

(** X21.  A configuration directory without a configuration name, which is
    the default call: joining the directory with [None] raises [TypeError],
    and [pip] ends there, before anything else has happened. *)
Theorem pip_directory_without_config_name requested verbose use_pki use_overrides
    (dir : string) (ipydeps_config : Config) (st : state W) :
  config_dir (world st) = Ok (Some dir) ->
  load_config (Some dir) (world st) = Ok ipydeps_config ->
  pip requested verbose use_pki use_overrides None st
  = (Raise (TypeError "unsupported operand type(s) for /"), st).
Proof.
  intros Hdir Hcfg. unfold pip, bind, query, lift. rewrite Hdir, Hcfg. reflexivity.
Qed.

End Frames.

(** ** The further properties, in the concrete worlds *)

Module ShellWitnesses.
Import Shell.

Lemma listing_plain : Forall plain_line listing.
Proof.
  unfold listing. repeat constructor; unfold no_char; simpl;
    repeat constructor; discriminate.
Qed.

Lemma listing_decodes :
  decode_utf8 (String.list_byte_of_string (freeze_text listing))
  = Some (freeze_text listing).
Proof. vm_compute. reflexivity. Qed.

Lemma run_get_stderr_outcome_witness :
  run_get_stderr ["false"; "x"] [] start
  = (Ok (1%Z, Some "something went wrong"),
     mkState (ran ["false"; "x"] (world start)) [EvSpawn ["false"; "x"] []]).
Proof.
  exact (run_get_stderr_outcome ["false"; "x"] [] start 1 []
           (String.list_byte_of_string "something went wrong")
           (ran ["false"; "x"] (world start)) eq_refl).
Defined.

Lemma run_get_stderr_spawn_failure_witness :
  run_get_stderr ["nope"] [] start
  = (Raise (OSError "No such file or directory"),
     mkState (world start) [EvSpawn ["nope"] []]).
Proof.
  apply (run_get_stderr_spawn_failure ["nope"] [] start
           (OSError "No such file or directory") (world start)).
  - reflexivity.
  - intros rc stderr. discriminate.
Defined.

Lemma run_and_log_error_logs_failure_witness :
  run_and_log_error ["false"] start
  = (Ok tt,
     mkState (ran ["false"] (world start))
       [EvSpawn ["false"] (environ (world start));
        EvLog ERROR "something went wrong" []]).
Proof.
  exact (run_and_log_error_logs_failure ["false"] start 1 []
           (String.list_byte_of_string "something went wrong") "something went wrong"
           (ran ["false"] (world start)) eq_refl eq_refl).
Defined.

Lemma run_pip_pki_cleans_up_witness :
  exists w3,
    world (snd (run_pip ["numpy"] true false None start))
    = release_key_cert (remove_temporary_path "/tmp/combined" w3).
Proof.
  exact (run_pip_pki_cleans_up ["numpy"] false None start
           "/tmp/key" "/tmp/cert" "/etc/ssl/ca.pem" (world start) eq_refl eq_refl).
Defined.

Lemma run_pip_pki_command_line_witness :
  spawned (trace (snd (run_pip ["numpy"] true true None start)))
  = [["/usr/bin/python3"; "-m"; "pip"; "install"; "-vvv";
      "--client-cert=/tmp/combined"; "--cert=/etc/ssl/ca.pem"; "numpy"]].
Proof.
  exact (run_pip_pki_command_line ["numpy"] true None start
           "/tmp/key" "/tmp/cert" "/etc/ssl/ca.pem" (world start) (world start)
           eq_refl eq_refl eq_refl).
Defined.

Lemma process_pip_freeze_output_names_witness :
  process_pip_freeze_output (String.list_byte_of_string (freeze_text listing)) start
  = (Ok ["NumPy"; "pip"], start).
Proof.
  exact (process_pip_freeze_output_names
           (String.list_byte_of_string (freeze_text listing)) listing start
           listing_decodes listing_plain).
Defined.

Lemma currently_installed_union_witness :
  currently_installed start
  = (Ok (lower_all (list_to_set ["Requests"; "pip"] ∪ list_to_set ["NumPy"; "pip"])),
     mkState (ran ["/usr/bin/python3"; "-m"; "pip"; "freeze"; "--all"] (world start))
       [EvSpawn ["/usr/bin/python3"; "-m"; "pip"; "freeze"; "--all"]
          (environ (world start))]).
Proof.
  exact (currently_installed_union start
           (String.list_byte_of_string (freeze_text listing)) [] listing
           (ran ["/usr/bin/python3"; "-m"; "pip"; "freeze"; "--all"] (world start))
           eq_refl listing_decodes listing_plain).
Defined.

Lemma currently_installed_freeze_failure_witness :
  currently_installed broken
  = (Raise (CalledProcessError 1 None),
     mkState (ran ["/usr/bin/python3"; "-m"; "pip"; "freeze"; "--all"] (world broken))
       [EvSpawn ["/usr/bin/python3"; "-m"; "pip"; "freeze"; "--all"]
          (environ (world broken))]).
Proof.
  assert (Hrc : 1%Z <> 0%Z) by discriminate.
  exact (currently_installed_freeze_failure broken 1 []
           (String.list_byte_of_string "No module named pip")
           (ran ["/usr/bin/python3"; "-m"; "pip"; "freeze"; "--all"] (world broken))
           eq_refl Hrc).
Defined.

Lemma installed_at_start :
  currently_installed start
  = (Ok (lower_all (list_to_set ["Requests"; "pip"] ∪ list_to_set ["NumPy"; "pip"])),
     mkState (ran ["/usr/bin/python3"; "-m"; "pip"; "freeze"; "--all"] (world start))
       [EvSpawn ["/usr/bin/python3"; "-m"; "pip"; "freeze"; "--all"]
          (environ (world start))]).
Proof. vm_compute. reflexivity. Qed.

Lemma currently_installed_lowercase_witness :
  (forall p,
      p ∈ lower_all (list_to_set ["Requests"; "pip"] ∪ list_to_set ["NumPy"; "pip"]) ->
      Text.lower p = p)
  /\ "requests" ∈ lower_all (list_to_set ["Requests"; "pip"] ∪ list_to_set ["NumPy"; "pip"]).
Proof.
  destruct (currently_installed_lowercase start _ _ installed_at_start)
    as (Hlow & Hreg & _).
  split; [exact Hlow |].
  apply (Hreg "Requests"). simpl. set_solver.
Defined.

Lemma pip_config_name_without_directory_witness :
  pip (OneStr "numpy") false false true (Some "pip.conf") start
  = (Raise (AttributeError "exists"), start).
Proof.
  exact (pip_config_name_without_directory (OneStr "numpy") false false true "pip.conf"
           Demo.config start eq_refl eq_refl).
Defined.

Lemma find_overrides_one_request_witness :
  exists t,
    trace (snd (find_overrides {["numpy"]} Demo.config start)) = trace start ++ t
    /\ spawned t = []
    /\ (t = [] <-> ({["numpy"]} : gset string) = ∅)
    /\ (({["numpy"]} : gset string) <> ∅ ->
        exists logs,
          t = EvUrlopen (dependencies_link Demo.config)
                (dependencies_link_requires_pki Demo.config) :: logs
          /\ Forall warning_or_error logs).
Proof.
  eapply (find_overrides_one_request {["numpy"]} Demo.config start).
  apply surjective_pairing.
Defined.

Lemma true_starts (args : list string) : starts (W:=world_t) ("true" :: args).
Proof.
  intros env w. exists 0%Z, [], [], (ran ("true" :: args) w).
  split; [reflexivity | discriminate].
Qed.

Lemma false_starts (args : list string) : starts (W:=world_t) ("false" :: args).
Proof.
  intros env w.
  exists 1%Z, [], (String.list_byte_of_string "something went wrong"),
    (ran ("false" :: args) w).
  split; [reflexivity | vm_compute; discriminate].
Qed.

Lemma run_overrides_runs_every_command_witness :
  exists st' t,
    run_overrides
      [("numpy", [["false"; "numpy"]; []; ["true"; "numpy"]]); ("scipy", [["true"; "scipy"]])]
      start = (Ok tt, st')
    /\ trace st' = trace start ++ t
    /\ spawned t = [["false"; "numpy"]; ["true"; "numpy"]; ["true"; "scipy"]].
Proof.
  apply (run_overrides_runs_every_command
           [("numpy", [["false"; "numpy"]; []; ["true"; "numpy"]]); ("scipy", [["true"; "scipy"]])]).
  repeat constructor;
    [apply false_starts | apply true_starts | apply true_starts].
Defined.

(** The same run, entry by entry: the failing command leaves its error in
    the log, and the commands after it run. *)
Example run_overrides_past_a_failure :
  run_overrides
    [("numpy", [["false"; "numpy"]; []; ["true"; "numpy"]]); ("scipy", [["true"; "scipy"]])]
    start
  = (Ok tt,
     mkState
       {| history := [["true"; "scipy"]; ["true"; "numpy"]; ["false"; "numpy"]];
          pip_broken := false |}
       [ EvLog INFO "Executing overrides for %s" ["numpy"];
         EvLog DEBUG "false numpy" [];
         EvSpawn ["false"; "numpy"] (environ (world start));
         EvLog ERROR "something went wrong" [];
         EvLog DEBUG "true numpy" [];
         EvSpawn ["true"; "numpy"] (environ (world start));
         EvLog INFO "Executing overrides for %s" ["scipy"];
         EvLog DEBUG "true scipy" [];
         EvSpawn ["true"; "scipy"] (environ (world start)) ]).
Proof. vm_compute. reflexivity. Qed.

End ShellWitnesses.

Module DemoWitnesses.
Import Demo.

Lemma document_lowercase : lowercase_document document.
Proof.
  unfold lowercase_document, document. split.
  - apply (bool_decide_unpack _). vm_compute. exact I.
  - repeat (constructor;
            [split; [apply (bool_decide_unpack _); vm_compute; exact I
                    | repeat constructor] |]).
    constructor.
Qed.

Lemma case_insensitive_dependencies_json_lowercase_witness :
  case_insensitive_dependencies_json document (start serving)
  = (Ok document, start serving).
Proof.
  exact (case_insensitive_dependencies_json_lowercase document (start serving)
           document_lowercase).
Defined.

Lemma find_overrides_from_document_witness :
  exists overrides,
    find_overrides {["numpy"; "scipy"]} config (start serving)
    = (Ok overrides, mkState serving [fetch])
    /\ dict_get "numpy" overrides = Some [["echo"; "micro"]].
Proof.
  destruct (find_overrides_from_document {["numpy"; "scipy"]} config (start serving)
              (String.list_byte_of_string "overrides") "overrides" document serving)
    as (overrides & Hrun & Hsel).
  - apply (non_empty_inhabited_L "numpy"). set_solver.
  - reflexivity.
  - vm_compute. reflexivity.
  - reflexivity.
  - exact document_lowercase.
  - exists overrides. split; [exact Hrun |].
    rewrite (Hsel "numpy") by set_solver. vm_compute. reflexivity.
Defined.

Lemma pip_directory_without_config_name_witness :
  pip (OneStr "numpy") false false true None (start with_configs)
  = (Raise (TypeError "unsupported operand type(s) for /"), start with_configs).
Proof.
  exact (pip_directory_without_config_name (OneStr "numpy") false false true
           "/etc/ipydeps" config (start with_configs) eq_refl eq_refl).
Defined.

End DemoWitnesses.

(** ** Requirements with a version pass the safelist *)

Module Requirements.
Import Re.

Lemma group_loop_is_star (s : list ascii) :
  bt (Star (Cat (Chr ".") (Plus digit))) s Some = group_loop (length s) s.
Proof. reflexivity. Qed.

Lemma boundary_not_digit (rest : list ascii) :
  at_boundary rest ->
  match rest with [] => True | c :: _ => in_class [("0", "9")]%char c = false end.
Proof. intros [-> | [rest' ->]]; [exact I | reflexivity]. Qed.

Lemma dotted_not_digit (more : list (list ascii)) (rest : list ascii) :
  at_boundary rest ->
  match dotted more ++ rest with
  | [] => True
  | c :: _ => in_class [("0", "9")]%char c = false
  end.
Proof.
  intros Hb. destruct more as [| g more].
  - apply boundary_not_digit. exact Hb.
  - reflexivity.
Qed.

Lemma group_loop_reads (rest : list ascii) (more : list (list ascii)) :
  at_boundary rest ->
  Forall digits_run more ->
  forall fuel,
    length (dotted more ++ rest) <= fuel ->
    group_loop fuel (dotted more ++ rest) = Some rest.
Proof.
  intros Hb. induction 1 as [| g more [Hne Hg] _ IH]; intros fuel Hfuel.
  - change (dotted [] ++ rest) with rest.
    destruct fuel as [| fuel]; [reflexivity |].
    destruct Hb as [-> | [rest' ->]]; reflexivity.
  - destruct g as [| d g]; [contradiction |].
    apply Forall_cons in Hg. destruct Hg as [Hd Hg].
    assert (Hs : dotted ((d :: g) :: more) ++ rest
                 = "."%char :: d :: g ++ (dotted more ++ rest)).
    { unfold dotted. simpl. rewrite <- app_assoc. reflexivity. }
    rewrite Hs in *. clear Hs.
    destruct fuel as [| fuel]; [simpl in Hfuel; lia |].
    set (s := "."%char :: d :: g ++ dotted more ++ rest).
    change (group_loop (S fuel) s)
      with (match (if in_class [("0", "9")]%char d
                   then bt (Star digit) (g ++ dotted more ++ rest)
                          (fun s' => if (length s' <? length s)%nat
                                     then group_loop fuel s' else None)
                   else None) with
            | Some r => Some r
            | None => Some s
            end).
    rewrite Hd.
    unfold digit.
    rewrite (PlainNames.bt_star_class [("0", "9")]%char (dotted more ++ rest) _ rest);
      [reflexivity | | | exact Hg].
    + apply dotted_not_digit. exact Hb.
    + replace (length (dotted more ++ rest) <? length s)%nat with true.
      * apply IH. subst s. simpl in Hfuel. rewrite length_app in Hfuel. lia.
      * symmetry. apply Nat.ltb_lt. subst s. simpl. rewrite !length_app. lia.
Qed.

Lemma version_number_reads (first second : list ascii) (more : list (list ascii))
    (rest : list ascii) :
  digits_run first -> digits_run second -> Forall digits_run more ->
  at_boundary rest ->
  bt version_number (first ++ "."%char :: second ++ dotted more ++ rest) Some
  = Some rest.
Proof.
  intros [Hne1 H1] [Hne2 H2] Hmore Hb.
  destruct first as [| d1 g1]; [contradiction |].
  destruct second as [| d2 g2]; [contradiction |].
  apply Forall_cons in H1. destruct H1 as [Hd1 H1].
  apply Forall_cons in H2. destruct H2 as [Hd2 H2].
  change (bt version_number ((d1 :: g1) ++ "."%char :: (d2 :: g2) ++ dotted more ++ rest) Some)
    with (if in_class [("0", "9")]%char d1
          then bt (Star (Cls [("0", "9")]%char))
                 (g1 ++ "."%char :: d2 :: g2 ++ dotted more ++ rest)
                 (fun s' => bt (Cat (Chr ".") (Cat (Plus digit)
                                  (Star (Cat (Chr ".") (Plus digit))))) s' Some)
          else None).
  rewrite Hd1. apply PlainNames.bt_star_class; [reflexivity | | exact H1].
  change (bt (Cat (Chr ".") (Cat (Plus digit) (Star (Cat (Chr ".") (Plus digit)))))
            ("."%char :: d2 :: g2 ++ dotted more ++ rest) Some)
    with (if in_class [("0", "9")]%char d2
          then bt (Star (Cls [("0", "9")]%char)) (g2 ++ dotted more ++ rest)
                 (fun s' => bt (Star (Cat (Chr ".") (Plus digit))) s' Some)
          else None).
  rewrite Hd2. apply PlainNames.bt_star_class; [| | exact H2].
  - apply dotted_not_digit. exact Hb.
  - rewrite group_loop_is_star. apply group_loop_reads; [exact Hb | exact Hmore | lia].
Qed.

Lemma comparator_reads (cmp : string) (s : list ascii)
    (k : list ascii -> option (list ascii)) (res : list ascii) :
  In cmp comparators ->
  k s = Some res ->
  (forall x, k ("="%char :: x) = None) ->
  bt comparator (list_ascii_of_string cmp ++ s) k = Some res.
Proof.
  intros Hin Hk Heq. simpl in Hin.
  destruct Hin as [<- | [<- | [<- | [<- | [<- | []]]]]]; simpl;
    rewrite ?Heq, ?Hk; reflexivity.
Qed.

Lemma version_spec_reads (cmp : string) (first second : list ascii)
    (more : list (list ascii)) (rest : list ascii) :
  In cmp comparators ->
  digits_run first -> digits_run second -> Forall digits_run more ->
  at_boundary rest ->
  bt version_spec
    (list_ascii_of_string cmp ++ first ++ "."%char :: second ++ dotted more ++ rest) Some
  = Some rest.
Proof.
  intros Hin H1 H2 Hmore Hb.
  change (bt version_spec ?s Some)
    with (bt comparator s (fun s' => bt version_number s' Some)).
  apply comparator_reads; [exact Hin | | reflexivity].
  apply version_number_reads; assumption.
Qed.

Lemma comparator_not_name_char (cmp : string) (s : list ascii) :
  In cmp comparators ->
  match list_ascii_of_string cmp ++ s with
  | [] => True
  | c :: _ =>
      in_class [("A", "Z"); ("a", "z"); ("0", "9"); ("_", "_"); ("-", "-")]%char c = false
  end.
Proof.
  intros Hin. simpl in Hin.
  destruct Hin as [<- | [<- | [<- | [<- | [<- | []]]]]]; reflexivity.
Qed.

Lemma match_versioned (c : ascii) (run : list ascii) (cmp : string)
    (first second : list ascii) (more : list (list ascii)) (rest : list ascii) :
  is_letter c = true ->
  run <> [] ->
  Forall (fun c' => is_name_char c' = true) run ->
  In cmp comparators ->
  digits_run first -> digits_run second -> Forall digits_run more ->
  at_boundary rest ->
  match_len package_name_pattern (versioned_chars c run cmp first second more ++ rest)
  = Some (length (versioned_chars c run cmp first second more)).
Proof.
  intros Hc Hne Hrun Hin H1 H2 Hmore Hb. unfold match_len.
  assert (Hbt : bt package_name_pattern
                  (versioned_chars c run cmp first second more ++ rest) Some
                = Some rest).
  { destruct run as [| c2 run2]; [contradiction |].
    apply Forall_cons in Hrun. destruct Hrun as [Hc2 Hrun2].
    change (in_class [("A", "Z"); ("a", "z")]%char c = true) in Hc.
    change (in_class [("A", "Z"); ("a", "z"); ("0", "9"); ("_", "_"); ("-", "-")]%char
              c2 = true) in Hc2.
    assert (Hrun' : Forall
              (fun c' => in_class
                 [("A", "Z"); ("a", "z"); ("0", "9"); ("_", "_"); ("-", "-")]%char c' = true)
              run2) by exact Hrun2.
    assert (Hs : versioned_chars c (c2 :: run2) cmp first second more ++ rest
                 = c :: c2 :: run2
                     ++ (list_ascii_of_string cmp
                           ++ first ++ "."%char :: second ++ dotted more ++ rest)).
    { unfold versioned_chars. simpl. rewrite <- !app_assoc. simpl.
      rewrite <- !app_assoc. reflexivity. }
    rewrite Hs.
    change (bt package_name_pattern (c :: c2 :: run2 ++ ?tail) Some)
      with (if in_class [("A", "Z"); ("a", "z")]%char c
            then if in_class [("A", "Z"); ("a", "z"); ("0", "9"); ("_", "_"); ("-", "-")]%char c2
                 then bt (Star name_char) (run2 ++ tail)
                        (fun s' => bt (Opt version_spec) s' Some)
                 else None
            else None).
    rewrite Hc, Hc2. unfold name_char. apply PlainNames.bt_star_class.
    - apply comparator_not_name_char. exact Hin.
    - change (bt (Opt version_spec) ?s Some)
        with (match bt version_spec s Some with
              | Some r => Some r
              | None => Some s
              end).
      rewrite version_spec_reads by assumption. reflexivity.
    - exact Hrun'. }
  rewrite Hbt. f_equal. rewrite length_app. lia.
Qed.

Lemma digit_no_space (c : ascii) :
  in_class [("0", "9")]%char c = true -> Text.is_space c = false.
Proof. destruct c as [[] [] [] [] [] [] [] []]; vm_compute; congruence. Qed.

Lemma digits_no_space (g : list ascii) :
  digits_run g -> Forall (fun c => Text.is_space c = false) g.
Proof.
  intros [_ Hg]. eapply Forall_impl; [exact Hg |]. apply digit_no_space.
Qed.

Lemma dotted_no_space (more : list (list ascii)) :
  Forall digits_run more -> Forall (fun c => Text.is_space c = false) (dotted more).
Proof.
  induction 1 as [| g more Hg _ IH]; [constructor |].
  unfold dotted. simpl. constructor; [reflexivity |].
  apply Forall_app. split; [apply digits_no_space; exact Hg | exact IH].
Qed.

Lemma comparator_no_space (cmp : string) :
  In cmp comparators ->
  Forall (fun c => Text.is_space c = false) (list_ascii_of_string cmp).
Proof.
  intros Hin. simpl in Hin.
  destruct Hin as [<- | [<- | [<- | [<- | [<- | []]]]]]; repeat constructor.
Qed.

Lemma digit_group_run (g : string) :
  digit_group g = true -> digits_run (list_ascii_of_string g).
Proof.
  unfold digit_group, digits_run.
  destruct (list_ascii_of_string g) as [| d l]; [discriminate |].
  intros Hg. split; [discriminate |].
  apply Forall_forall. intros x Hx.
  apply (proj1 (forallb_forall _ _) Hg). apply list_elem_of_In. exact Hx.
Qed.

Lemma join_dots (first : string) (more : list string) :
  list_ascii_of_string (Text.join "." (first :: more))
  = list_ascii_of_string first ++ dotted (map list_ascii_of_string more).
Proof.
  revert first. induction more as [| g more IH]; intros first.
  - simpl. rewrite app_nil_r. reflexivity.
  - change (Text.join "." (first :: g :: more))
      with (first +:+ "." +:+ Text.join "." (g :: more)).
    rewrite !FreezeFacts.list_ascii_of_string_app, IH. reflexivity.
Qed.

Lemma plain_whole (name : string) :
  plain_name name = true -> whole_token (list_ascii_of_string name).
Proof.
  intros Hname.
  destruct (PlainNames.plain_name_chars name Hname) as (c & run & Hcs & Hc & Hne & Hrun).
  rewrite Hcs. split; [discriminate | split].
  - constructor; [apply PlainNames.letter_no_space; exact Hc |].
    eapply Forall_impl; [exact Hrun |]. apply PlainNames.name_char_no_space.
  - intros rest Hb. apply (PlainNames.match_plain_name c run rest); assumption.
Qed.

Lemma requirement_whole (r : requirement) :
  well_formed_requirement r ->
  whole_token (list_ascii_of_string (requirement_text r)).
Proof.
  destruct r as [name | name cmp first second more];
    cbn [well_formed_requirement requirement_text].
  - apply plain_whole.
  - intros (Hname & Hin & H1 & H2 & Hmore).
    destruct (PlainNames.plain_name_chars name Hname) as (c & run & Hcs & Hc & Hne & Hrun).
    apply digit_group_run in H1. apply digit_group_run in H2.
    assert (Hmore' : Forall digits_run (map list_ascii_of_string more)).
    { apply Forall_forall. intros g Hg. apply list_elem_of_In, in_map_iff in Hg.
      destruct Hg as (g0 & <- & Hg0). apply digit_group_run.
      apply (proj1 (Forall_forall _ _) Hmore). apply list_elem_of_In. exact Hg0. }
    assert (Htext : list_ascii_of_string
                      (name +:+ cmp +:+ Text.join "." (first :: second :: more))
                    = versioned_chars c run cmp (list_ascii_of_string first)
                        (list_ascii_of_string second) (map list_ascii_of_string more)).
    { rewrite !FreezeFacts.list_ascii_of_string_app, Hcs.
      change (Text.join "." (first :: second :: more))
        with (first +:+ "." +:+ Text.join "." (second :: more)).
      rewrite !FreezeFacts.list_ascii_of_string_app, join_dots.
      unfold versioned_chars. reflexivity. }
    rewrite Htext. split; [discriminate | split].
    + unfold versioned_chars.
      constructor; [apply PlainNames.letter_no_space; exact Hc |].
      repeat (apply Forall_app; split).
      * eapply Forall_impl; [exact Hrun |]. apply PlainNames.name_char_no_space.
      * apply comparator_no_space. exact Hin.
      * apply digits_no_space. exact H1.
      * constructor; [reflexivity |]. apply Forall_app. split.
        -- apply digits_no_space. exact H2.
        -- apply dotted_no_space. exact Hmore'.
    + intros rest Hb. apply match_versioned; assumption.
Qed.

Lemma scan_whole (t rest : list ascii) :
  whole_token t ->
  at_boundary rest ->
  scan package_name_pattern 0 (t ++ rest)
  = t :: scan package_name_pattern 0 (drop 1 rest).
Proof.
  intros (Hne & _ & Hm) Hb. destruct t as [| c t]; [contradiction |].
  change (scan package_name_pattern 0 ((c :: t) ++ rest))
    with (match match_len package_name_pattern ((c :: t) ++ rest) with
          | Some n => take n ((c :: t) ++ rest)
                      :: scan package_name_pattern (n - 1) (t ++ rest)
          | None => scan package_name_pattern 0 (t ++ rest)
          end).
  rewrite (Hm rest Hb).
  replace (length (c :: t) - 1)%nat with (length t) by (simpl; lia).
  rewrite PlainNames.scan_skip, take_app_length.
  f_equal. destruct Hb as [-> | [rest' ->]]; reflexivity.
Qed.

Lemma scan_joined_whole (names : list string) :
  Forall (fun name => whole_token (list_ascii_of_string name)) names ->
  scan package_name_pattern 0 (list_ascii_of_string (Text.join " " names))
  = map list_ascii_of_string names.
Proof.
  induction 1 as [| name names Hname _ IH]; [reflexivity |].
  destruct names as [| name2 names].
  - simpl Text.join.
    rewrite <- (app_nil_r (list_ascii_of_string name)).
    rewrite scan_whole; [reflexivity | exact Hname | left; reflexivity].
  - change (Text.join " " (name :: name2 :: names))
      with (name +:+ " " +:+ Text.join " " (name2 :: names)).
    rewrite !FreezeFacts.list_ascii_of_string_app.
    change (list_ascii_of_string " " ++ ?x) with (" "%char :: x).
    rewrite scan_whole; [| exact Hname | right; eexists; reflexivity].
    change (drop 1 (" "%char :: list_ascii_of_string (Text.join " " (name2 :: names))))
      with (list_ascii_of_string (Text.join " " (name2 :: names))).
    rewrite IH. reflexivity.
Qed.

End Requirements.

(** X22.  A sequence of well-formed requirements, each a bare name or a
    name followed by one of [<], [>], [<=], [>=], [==] and a version of two
    or more groups of digits, gets through whole: the safelist finds exactly
    these texts, in order, and [get_pkg_names] returns the set of them. *)
Theorem get_pkg_names_requirements (rs : list requirement) :
  Forall well_formed_requirement rs ->
  let texts := map requirement_text rs in
  valid_pkg_names (Text.join " " texts) = texts
  /\ get_pkg_names (StrSeq texts) = list_to_set texts.
Proof.
  intros Hrs texts.
  assert (Hw : Forall (fun t => whole_token (list_ascii_of_string t)) texts).
  { subst texts. induction Hrs as [| r rs Hr _ IH]; constructor.
    - apply Requirements.requirement_whole. exact Hr.
    - exact IH. }
  clearbody texts. clear Hrs rs.
  assert (Hv : valid_pkg_names (Text.join " " texts) = texts).
  { unfold valid_pkg_names, findall.
    rewrite Requirements.scan_joined_whole by exact Hw.
    rewrite map_map. rewrite <- (map_id texts) at 2.
    apply map_ext. intros a. apply string_of_list_ascii_of_string. }
  split; [exact Hv |].
  unfold get_pkg_names. simpl joined. rewrite Hv. clear Hv.
  f_equal. induction Hw as [| t texts (Hne & Hsp & _) _ IH]; [reflexivity |].
  assert (Hstrip : Text.strip t = t).
  { rewrite <- (string_of_list_ascii_of_string t).
    apply TextFacts.strip_no_space. exact Hsp. }
  simpl map. rewrite Hstrip. rewrite filter_cons_True.
  - rewrite IH. reflexivity.
  - apply Nat.ltb_lt. rewrite <- FreezeFacts.length_list_ascii_of_string.
    destruct (list_ascii_of_string t); [contradiction | simpl; lia].
Qed.

Lemma get_pkg_names_requirements_witness :
  valid_pkg_names "numpy>=1.26.4 scikit-learn pandas==2.2 scipy<1.13.0.1"
  = ["numpy>=1.26.4"; "scikit-learn"; "pandas==2.2"; "scipy<1.13.0.1"]
  /\ get_pkg_names (StrSeq ["numpy>=1.26.4"; "scikit-learn"; "pandas==2.2"; "scipy<1.13.0.1"])
     = list_to_set ["numpy>=1.26.4"; "scikit-learn"; "pandas==2.2"; "scipy<1.13.0.1"].
Proof.
  apply (get_pkg_names_requirements
           [Versioned "numpy" ">=" "1" "26" ["4"]; Bare "scikit-learn";
            Versioned "pandas" "==" "2" "2" []; Versioned "scipy" "<" "1" "13" ["0"; "1"]]).
  repeat constructor; simpl; tauto.
Defined.
